(** * es2csv: a shallow embedding of [es2csv.py] and its specification

    The development follows the source file top-down:

    - [Py]      the Python values the program manipulates (strings, JSON
                documents, ordered dictionaries, [str()] and [json.dumps]);
    - [Retry]   the [retry] decorator;
    - [Flatten] the nested function [to_keyvalue_pairs];
    - [Exporter] the class [Es2csv]: [prepare_file], [write_to_file] and
                [dump_index], over an explicit file system and an abstract
                search backend;
    - [Session] the decorated methods [create_connection] and
                [check_indexes].

    Python dictionaries keep insertion order and that order is observable
    (in [json.dumps] and in the order of concatenation), so they are
    association lists.  The file system maps file names to contents and is
    a [gmap]. *)

From Stdlib Require Import ZArith String Ascii List Lia Bool DecimalString.
From stdpp Require Import base option gmap strings list.

Set Warnings "-register-all".
Local Open Scope Z_scope.

(* ===================================================================== *)
(** ** Python values *)
(* ===================================================================== *)

Module Py.

(** Python floats are kept abstract: the program never computes with them,
    it only prints them, through [str()] (in ['%s' % x]) and through
    [json.dumps]. *)
Class PyFloat : Type := {
  float : Type;
  float_str : float -> string;
  float_json : float -> string
}.

(** Exceptions that the modelled code can raise by itself. *)
Inductive exn : Type :=
| KeyError (key : string)
| NameError (name : string)
| AttributeError (attr : string)
| TypeError (msg : string)
| ValueError (msg : string).

Inductive result (A : Type) : Type :=
| Ret (a : A)
| Raise (e : exn).
Arguments Ret {A} a.
Arguments Raise {A} e.

(** [str(n)] for an integer. *)
Definition str_int (n : Z) : string := NilZero.string_of_int (Z.to_int n).

(** [sep.join(l)] *)
Definition join (sep : string) (l : list string) : string := String.concat sep l.

(** [s.replace(old, new)] for single characters. *)
Fixpoint replace_char (old new : ascii) (s : string) : string :=
  match s with
  | EmptyString => EmptyString
  | String c s' =>
      String (if Ascii.eqb c old then new else c) (replace_char old new s')
  end.

(** [x in l] for a list of strings. *)
Definition str_in (x : string) (l : list string) : bool :=
  existsb (String.eqb x) l.

(** Basic facts on string concatenation. *)
Lemma str_app_nil_l (s : string) : EmptyString +:+ s = s.
Proof. reflexivity. Qed.

Lemma str_app_cons (c : ascii) (a s : string) :
  String c a +:+ s = String c (a +:+ s).
Proof. reflexivity. Qed.

Lemma str_app_nil_r (s : string) : s +:+ EmptyString = s.
Proof.
  induction s as [|c s IH]; [reflexivity|].
  rewrite str_app_cons, IH. reflexivity.
Qed.

Lemma str_app_assoc (a b c : string) : (a +:+ b) +:+ c = a +:+ (b +:+ c).
Proof.
  induction a as [|x a IH]; [reflexivity|].
  rewrite !str_app_cons, IH. reflexivity.
Qed.

(** The double quote and the line feed. *)
Definition dquote : ascii := ascii_of_nat 34.
Definition newline : ascii := ascii_of_nat 10.

(** The number of line feeds in a text. *)
Fixpoint count_nl (s : string) : nat :=
  match s with
  | EmptyString => O
  | String c s' => ((if Ascii.eqb c newline then 1 else 0) + count_nl s')%nat
  end.

Lemma count_nl_app (a b : string) :
  count_nl (a +:+ b) = (count_nl a + count_nl b)%nat.
Proof.
  induction a as [|c a IH]; [reflexivity|].
  rewrite str_app_cons. cbn [count_nl]. rewrite IH. lia.
Qed.

Lemma count_nl_uint (d : Decimal.uint) :
  count_nl (NilEmpty.string_of_uint d) = O.
Proof. induction d; cbn [NilEmpty.string_of_uint count_nl]; auto. Qed.

Lemma count_nl_str_int (n : Z) : count_nl (str_int n) = O.
Proof.
  unfold str_int, NilZero.string_of_int, NilZero.string_of_uint.
  destruct (Z.to_int n) as [d|d]; destruct d;
    cbn [count_nl NilEmpty.string_of_uint Ascii.eqb];
    try reflexivity; apply count_nl_uint.
Qed.

Lemma count_nl_join (sep : string) (l : list string) :
  count_nl sep = O -> Forall (fun s => count_nl s = O) l ->
  count_nl (join sep l) = O.
Proof.
  intros Hsep. induction 1 as [|x l Hx Hl IH]; [reflexivity|].
  unfold join in *. cbn [String.concat]. destruct l as [|y l]; [exact Hx|].
  change (count_nl (x +:+ (sep +:+ String.concat sep (y :: l))) = O).
  rewrite !count_nl_app, Hx, Hsep, IH. reflexivity.
Qed.

Section Values.
Context `{PyFloat}.

(** Leaves of a document: [None], [bool], [int], [float], [str]. *)
Inductive scalar : Type :=
| PNone
| PBool (b : bool)
| PInt (n : Z)
| PFloat (x : float)
| PStr (s : string).

(** A decoded JSON value.  [JDict] lists the items of a [dict] in
    iteration order; a Python [dict] has no repeated key, see [wf_json]. *)
Inductive json : Type :=
| JScalar (v : scalar)
| JList (items : list json)
| JDict (fields : list (string * json)).

(** [str(v)], which is what ['%s' % v] prints. *)
Definition py_str (v : scalar) : string :=
  match v with
  | PNone => "None"
  | PBool true => "True"
  | PBool false => "False"
  | PInt n => str_int n
  | PFloat x => float_str x
  | PStr s => s
  end.

(** *** Ordered dictionaries *)

Fixpoint dict_get {V : Type} (k : string) (d : list (string * V)) : option V :=
  match d with
  | [] => None
  | (k', v) :: d' => if String.eqb k k' then Some v else dict_get k d'
  end.

(** [d[k] = v]: an existing key keeps its position, a new key goes last. *)
Fixpoint dict_set {V : Type} (k : string) (v : V) (d : list (string * V))
  : list (string * V) :=
  match d with
  | [] => [(k, v)]
  | (k', v') :: d' =>
      if String.eqb k k' then (k, v) :: d' else (k', v') :: dict_set k v d'
  end.

Definition dict_keys {V : Type} (d : list (string * V)) : list string :=
  map fst d.

(** [len(x)]; defined on [dict], [list] and [str] only. *)
Definition py_len (x : json) : result nat :=
  match x with
  | JDict fields => Ret (length fields)
  | JList items => Ret (length items)
  | JScalar (PStr s) => Ret (String.length s)
  | JScalar PNone => Raise (TypeError "object of type 'NoneType' has no len()")
  | JScalar (PBool _) => Raise (TypeError "object of type 'bool' has no len()")
  | JScalar (PInt _) => Raise (TypeError "object of type 'int' has no len()")
  | JScalar (PFloat _) => Raise (TypeError "object of type 'float' has no len()")
  end.

(** *** [json.dumps] with its default arguments

    [ensure_ascii=True], separators [', '] and [': '], no indentation.
    A character of a [string] is a code point below 256. *)

Definition hex_digit (n : nat) : ascii :=
  nth n (list_ascii_of_string "0123456789abcdef") "0"%char.

Definition escape_char (c : ascii) : string :=
  let n := nat_of_ascii c in
  if Nat.eqb n 34 then String "\" (String dquote EmptyString)
  else if Nat.eqb n 92 then "\\"
  else if Nat.eqb n 10 then "\n"
  else if Nat.eqb n 13 then "\r"
  else if Nat.eqb n 9 then "\t"
  else if Nat.eqb n 8 then "\b"
  else if Nat.eqb n 12 then "\f"
  else if (Nat.leb 32 n && Nat.leb n 126)%bool then String c EmptyString
  else "\u00" +:+ String (hex_digit (Nat.div n 16))
                     (String (hex_digit (Nat.modulo n 16)) EmptyString).

Fixpoint escape (s : string) : string :=
  match s with
  | EmptyString => EmptyString
  | String c s' => escape_char c +:+ escape s'
  end.

Definition dumps_str (s : string) : string :=
  String dquote (escape s +:+ String dquote EmptyString).

Definition dumps_scalar (v : scalar) : string :=
  match v with
  | PNone => "null"
  | PBool true => "true"
  | PBool false => "false"
  | PInt n => str_int n
  | PFloat x => float_json x
  | PStr s => dumps_str s
  end.

Fixpoint dumps (x : json) : string :=
  match x with
  | JScalar v => dumps_scalar v
  | JList items =>
      "[" +:+ join ", " ((fix each (l : list json) : list string :=
                            match l with
                            | [] => []
                            | y :: l' => dumps y :: each l'
                            end) items) +:+ "]"
  | JDict fields =>
      "{" +:+ join ", " ((fix each (l : list (string * json)) : list string :=
                            match l with
                            | [] => []
                            | (k, y) :: l' =>
                                (dumps_str k +:+ ": " +:+ dumps y) :: each l'
                            end) fields) +:+ "}"
  end.

(** *** Induction on documents *)

Section JsonInd.
Variable P : json -> Prop.
Hypothesis P_scalar : forall v, P (JScalar v).
Hypothesis P_list : forall items, Forall P items -> P (JList items).
Hypothesis P_dict :
  forall fields, Forall (fun kv => P (snd kv)) fields -> P (JDict fields).

Fixpoint json_ind_nested (x : json) : P x :=
  match x with
  | JScalar v => P_scalar v
  | JList items =>
      P_list items
        ((fix all (l : list json) : Forall P l :=
            match l with
            | [] => List.Forall_nil P
            | y :: l' => @List.Forall_cons _ P y l' (json_ind_nested y) (all l')
            end) items)
  | JDict fields =>
      P_dict fields
        ((fix all (l : list (string * json))
            : Forall (fun kv => P (snd kv)) l :=
            match l with
            | [] => List.Forall_nil _
            | (k, y) :: l' =>
                @List.Forall_cons _ (fun kv => P (snd kv)) (k, y) l'
                                  (json_ind_nested y) (all l')
            end) fields)
  end.
End JsonInd.

(** *** Facts on ordered dictionaries *)

Lemma str_in_spec (x : string) (l : list string) :
  str_in x l = true <-> x ∈ l.
Proof.
  unfold str_in. rewrite existsb_exists. split.
  - intros (y & Hy & Heq). apply String.eqb_eq in Heq. subst.
    apply list_elem_of_In. exact Hy.
  - intros Hx. exists x. split; [apply list_elem_of_In; exact Hx|].
    apply String.eqb_refl.
Qed.

Lemma dict_get_None {V : Type} (k : string) (d : list (string * V)) :
  dict_get k d = None <-> k ∉ dict_keys d.
Proof.
  induction d as [|[k' v] d IH]; simpl.
  - split; [intros _; apply not_elem_of_nil|reflexivity].
  - rewrite not_elem_of_cons.
    destruct (String.eqb_spec k k') as [->|Hne].
    + split; [discriminate|intros [Hk _]; congruence].
    + rewrite IH. tauto.
Qed.

Lemma dict_get_is_Some {V : Type} (k : string) (d : list (string * V)) :
  is_Some (dict_get k d) <-> k ∈ dict_keys d.
Proof.
  rewrite <- not_eq_None_Some, dict_get_None.
  destruct (decide (k ∈ dict_keys d)); tauto.
Qed.

Lemma dict_set_keys_present {V : Type} (k : string) (v : V) d :
  k ∈ dict_keys d -> dict_keys (dict_set k v d) = dict_keys d.
Proof.
  induction d as [|[k' v'] d IH]; simpl; intros Hk.
  - apply elem_of_nil in Hk. contradiction.
  - destruct (String.eqb_spec k k') as [->|Hne]; [reflexivity|].
    simpl. f_equal. apply IH.
    apply elem_of_cons in Hk as [Hk|Hk]; [congruence|exact Hk].
Qed.

Lemma dict_set_keys_absent {V : Type} (k : string) (v : V) d :
  k ∉ dict_keys d -> dict_keys (dict_set k v d) = dict_keys d ++ [k].
Proof.
  induction d as [|[k' v'] d IH]; simpl; intros Hk; [reflexivity|].
  apply not_elem_of_cons in Hk as [Hne Hk].
  destruct (String.eqb_spec k k') as [->|_]; [congruence|].
  simpl. f_equal. apply IH, Hk.
Qed.

Lemma dict_get_set_eq {V : Type} (k : string) (v : V) d :
  dict_get k (dict_set k v d) = Some v.
Proof.
  induction d as [|[k' v'] d IH]; simpl.
  - rewrite String.eqb_refl. reflexivity.
  - destruct (String.eqb_spec k k') as [->|Hne]; simpl.
    + rewrite String.eqb_refl. reflexivity.
    + destruct (String.eqb_spec k k'); [congruence|exact IH].
Qed.

Lemma dict_get_set_ne {V : Type} (k k' : string) (v : V) d :
  k' <> k -> dict_get k' (dict_set k v d) = dict_get k' d.
Proof.
  intros Hne. induction d as [|[k0 v0] d IH]; simpl.
  - destruct (String.eqb_spec k' k); [congruence|reflexivity].
  - destruct (String.eqb_spec k k0) as [->|Hk]; simpl.
    + destruct (String.eqb_spec k' k0); [congruence|reflexivity].
    + destruct (String.eqb_spec k' k0); [reflexivity|exact IH].
Qed.

(** *** [json.dumps] never produces a line feed *)

Lemma count_nl_escape_char (c : ascii) : count_nl (escape_char c) = O.
Proof.
  destruct c as [[] [] [] [] [] [] [] []]; vm_compute; reflexivity.
Qed.

Lemma count_nl_escape (s : string) : count_nl (escape s) = O.
Proof.
  induction s as [|c s IH]; [reflexivity|].
  cbn [escape]. rewrite count_nl_app, count_nl_escape_char, IH. reflexivity.
Qed.

Lemma count_nl_dumps_str (s : string) : count_nl (dumps_str s) = O.
Proof.
  unfold dumps_str. cbn [count_nl]. rewrite count_nl_app, count_nl_escape.
  reflexivity.
Qed.

Lemma dumps_list items :
  dumps (JList items) = "[" +:+ join ", " (map dumps items) +:+ "]".
Proof.
  cbn [dumps].
  replace (map dumps items)
    with ((fix each (l : list json) : list string :=
             match l with
             | [] => []
             | y :: l' => dumps y :: each l'
             end) items); [reflexivity|].
  induction items as [|y items IH]; [reflexivity|].
  cbn [map]. rewrite IH. reflexivity.
Qed.

Lemma dumps_dict fields :
  dumps (JDict fields) =
  "{" +:+ join ", " (map (fun kv => dumps_str (fst kv) +:+ ": " +:+ dumps (snd kv))
                         fields) +:+ "}".
Proof.
  cbn [dumps].
  replace (map (fun kv => dumps_str (fst kv) +:+ ": " +:+ dumps (snd kv)) fields)
    with ((fix each (l : list (string * json)) : list string :=
             match l with
             | [] => []
             | (k, y) :: l' => (dumps_str k +:+ ": " +:+ dumps y) :: each l'
             end) fields); [reflexivity|].
  induction fields as [|[k y] fields IH]; [reflexivity|].
  cbn [map fst snd]. rewrite IH. reflexivity.
Qed.

Lemma count_nl_dumps :
  (forall x, count_nl (float_json x) = O) ->
  forall x, count_nl (dumps x) = O.
Proof.
  intros Hfloat x.
  induction x as [v|items IH|fields IH] using json_ind_nested.
  - destruct v as [|[]|n|y|s]; cbn [dumps dumps_scalar];
      auto using count_nl_str_int, count_nl_dumps_str.
  - rewrite dumps_list, !count_nl_app, count_nl_join; [reflexivity..|].
    apply Forall_map. exact IH.
  - rewrite dumps_dict, !count_nl_app, count_nl_join; [reflexivity..|].
    apply Forall_map. eapply Forall_impl; [exact IH|].
    intros [k y] Hy. cbn [fst snd] in *.
    rewrite !count_nl_app, count_nl_dumps_str, Hy. reflexivity.
Qed.

End Values.

(** An instance for examples: a float is named by its shortest decimal
    notation, which is what both [str] and [json.dumps] print for a finite
    float. *)
Definition literal_float : PyFloat :=
  {| float := string; float_str := id; float_json := id |}.

(** Another instance: the floats with one decimal, a float being named
    by its number of tenths ([25] is [2.5], [-5] is [-0.5]). *)
Definition tenths_repr (n : Z) : string :=
  (if n <? 0 then "-" else EmptyString)
    +:+ str_int (Z.abs n / 10) +:+ "." +:+ str_int (Z.abs n mod 10).

Definition tenths_float : PyFloat :=
  {| float := Z; float_str := tenths_repr; float_json := tenths_repr |}.

Lemma count_nl_tenths (n : Z) : count_nl (tenths_repr n) = O.
Proof.
  unfold tenths_repr. rewrite !count_nl_app, !count_nl_str_int.
  destruct (n <? 0); reflexivity.
Qed.

End Py.

(* ===================================================================== *)
(** ** The [retry] decorator *)
(* ===================================================================== *)

Module Retry.
Import Py.

Definition TIMES_TO_TRY : Z := 3.
Definition RETRY_DELAY : Z := 60.

Section Decorator.
(** [W] is whatever the wrapped function [f] acts on (its arguments are
    fixed for the call); [E] is the type of exceptions, with
    [isinstance(e, ExceptionToCheck)] as a predicate. *)
Variables W A E : Type.
Variable ExceptionToCheck : E -> bool.
Variable str_exn : E -> string.
(** what [time.sleep] raises for a negative argument *)
Variable sleep_error : E.
Variables tries delay : Z.

Inductive outcome : Type :=
| Returns (a : A)
| Raises (e : E).

Variable f : W -> outcome * W.

(** What can be observed of a call of [f_retry]: the calls of [f], the
    lines printed, the pauses. *)
Inductive event : Type :=
| Called
| Printed (line : string)
| Slept (seconds : Z).

(** How [f_retry] ends: it returns, an exception leaves it, or [exit]
    ends the process with a status. *)
Inductive final : Type :=
| Returned (a : A)
| Raised (e : E)
| Exited (status : Z).

Definition run : Type := list event * W * final.

Definition emit (evs : list event) (r : option run) : option run :=
  match r with
  | Some (tr, w, r) => Some (evs ++ tr, w, r)
  | None => None
  end.

Definition retrying_notice : string :=
  "Retrying in " +:+ str_int delay +:+ " seconds ...".

(** The second [try], after the loop. *)
Definition final_attempt (w : W) : run :=
  match f w with
  | (Returns a, w') => ([Called], w', Returned a)
  | (Raises e, w') =>
      if ExceptionToCheck e
      then ([Called; Printed ("Fatal Error: " +:+ str_exn e)], w', Exited 1)
      else ([Called], w', Raised e)
  end.

(** [while mtries > 0: ...] followed by the second [try].  [None] only
    when [fuel] is too small for the loop. *)
Fixpoint retry_loop (fuel : nat) (mtries : Z) (w : W) : option run :=
  if 0 <? mtries then
    match fuel with
    | O => None
    | S fuel' =>
        match f w with
        | (Returns a, w') => Some ([Called], w', Returned a)
        | (Raises e, w') =>
            if ExceptionToCheck e then
              if delay <? 0 then
                Some ([Called; Printed (str_exn e); Printed retrying_notice],
                      w', Raised sleep_error)
              else
                emit [Called; Printed (str_exn e); Printed retrying_notice;
                      Slept delay]
                     (retry_loop fuel' (mtries - 1) w')
            else Some ([Called], w', Raised e)
        end
    end
  else Some (final_attempt w).

Definition f_retry (w : W) : option run :=
  retry_loop (Z.to_nat tries) tries w.

(** *** Observations on a trace and on the wrapped function *)

Fixpoint calls (tr : list event) : nat :=
  match tr with
  | [] => O
  | Called :: tr' => S (calls tr')
  | _ :: tr' => calls tr'
  end.

Fixpoint sleeps (tr : list event) : list Z :=
  match tr with
  | [] => []
  | Slept d :: tr' => d :: sleeps tr'
  | _ :: tr' => sleeps tr'
  end.

(** The state after [n] calls of [f] in a row, and what the next call
    does there. *)
Fixpoint world_after (n : nat) (w : W) : W :=
  match n with
  | O => w
  | S n' => world_after n' (snd (f w))
  end.

Definition outcome_at (n : nat) (w : W) : outcome := fst (f (world_after n w)).

Definition transient (o : outcome) : Prop :=
  match o with
  | Returns _ => False
  | Raises e => ExceptionToCheck e = true
  end.

Definition permanent (o : outcome) : Prop :=
  match o with
  | Returns _ => False
  | Raises e => ExceptionToCheck e = false
  end.

(** The events of [k] guarded attempts that all fail. *)
Fixpoint failed_rounds (k : nat) (w : W) : list event :=
  match k with
  | O => []
  | S k' =>
      match f w with
      | (Raises e, w') =>
          [Called; Printed (str_exn e); Printed retrying_notice; Slept delay]
            ++ failed_rounds k' w'
      | (Returns _, _) => []
      end
  end.

Lemma calls_app tr1 tr2 : calls (tr1 ++ tr2) = (calls tr1 + calls tr2)%nat.
Proof.
  induction tr1 as [|ev tr1 IH]; simpl; [reflexivity|].
  destruct ev; simpl; rewrite IH; reflexivity.
Qed.

Lemma sleeps_app tr1 tr2 : sleeps (tr1 ++ tr2) = sleeps tr1 ++ sleeps tr2.
Proof.
  induction tr1 as [|ev tr1 IH]; simpl; [reflexivity|].
  destruct ev; simpl; rewrite IH; reflexivity.
Qed.

Lemma emit_app evs1 evs2 r : emit evs1 (emit evs2 r) = emit (evs1 ++ evs2) r.
Proof.
  destruct r as [[[tr w] r]|]; simpl; [|reflexivity].
  rewrite app_assoc. reflexivity.
Qed.

Lemma transient_shift k w :
  (forall j, (j < S k)%nat -> transient (outcome_at j w)) ->
  forall j, (j < k)%nat -> transient (outcome_at j (snd (f w))).
Proof.
  intros Hall j Hj. apply (Hall (S j)). lia.
Qed.

Lemma failed_rounds_calls k w :
  (forall j, (j < k)%nat -> transient (outcome_at j w)) ->
  calls (failed_rounds k w) = k /\
  sleeps (failed_rounds k w) = repeat delay k.
Proof.
  revert w. induction k as [|k IH]; intros w Hall; simpl; [split; reflexivity|].
  pose proof (Hall O ltac:(lia)) as H0.
  unfold outcome_at in H0. simpl in H0.
  pose proof (transient_shift k w Hall) as Hrest.
  destruct (f w) as [[a|e] w'] eqn:Hf; simpl in *; [contradiction|].
  destruct (IH w' Hrest) as [Hc Hs].
  rewrite Hc, Hs. split; reflexivity.
Qed.

(** The loop goes through [k] failing rounds when the first [k]
    attempts fail with a retried exception and the budget allows. *)
Lemma retry_loop_rounds k :
  forall fuel mtries w,
    0 <= delay ->
    (k <= Z.to_nat mtries)%nat -> (Z.to_nat mtries <= fuel)%nat ->
    (forall j, (j < k)%nat -> transient (outcome_at j w)) ->
    retry_loop fuel mtries w =
    emit (failed_rounds k w)
         (retry_loop (fuel - k) (mtries - Z.of_nat k) (world_after k w)).
Proof.
  induction k as [|k IH]; intros fuel mtries w Hd Hk Hfuel Hall.
  - cbn [failed_rounds world_after].
    rewrite Nat.sub_0_r, Z.sub_0_r.
    destruct (retry_loop fuel mtries w) as [[[tr w'] r]|]; reflexivity.
  - destruct fuel as [|fuel]; [lia|].
    pose proof (Hall O ltac:(lia)) as H0.
    unfold outcome_at in H0. simpl in H0.
    pose proof (transient_shift k w Hall) as Hrest.
    cbn [retry_loop failed_rounds world_after Nat.sub].
    destruct (0 <? mtries) eqn:Hpos; [|apply Z.ltb_ge in Hpos; lia].
    destruct (f w) as [[a|e] w'] eqn:Hf; cbn [fst snd transient] in *;
      [contradiction|].
    rewrite H0.
    destruct (delay <? 0) eqn:Hneg; [apply Z.ltb_lt in Hneg; lia|].
    rewrite (IH fuel (mtries - 1) w' Hd ltac:(lia) ltac:(lia) Hrest).
    rewrite emit_app.
    replace (mtries - 1 - Z.of_nat k) with (mtries - Z.of_nat (S k)) by lia.
    reflexivity.
Qed.

(** The loop never runs out of fuel: [f_retry] is total. *)
Lemma retry_loop_total fuel :
  forall mtries w, (Z.to_nat mtries <= fuel)%nat ->
                   exists r, retry_loop fuel mtries w = Some r.
Proof.
  induction fuel as [|fuel IH]; intros mtries w Hfuel; simpl.
  - destruct (0 <? mtries) eqn:Hpos; [apply Z.ltb_lt in Hpos; lia|].
    eexists; reflexivity.
  - destruct (0 <? mtries) eqn:Hpos; [|eexists; reflexivity].
    apply Z.ltb_lt in Hpos.
    destruct (f w) as [[a|e] w']; [eexists; reflexivity|].
    destruct (ExceptionToCheck e); [|eexists; reflexivity].
    destruct (delay <? 0); [eexists; reflexivity|].
    destruct (IH (mtries - 1) w' ltac:(lia)) as [[[tr w''] r] Hr].
    rewrite Hr. eexists; reflexivity.
Qed.

(** An attempt that succeeds ends [f_retry] at once, in the loop as in
    the second [try]. *)
Lemma retry_loop_success fuel mtries w a w' :
  (Z.to_nat mtries <= fuel)%nat ->
  f w = (Returns a, w') ->
  retry_loop fuel mtries w = Some ([Called], w', Returned a).
Proof.
  intros Hfuel Hf.
  destruct fuel as [|fuel]; cbn [retry_loop]; unfold final_attempt;
    destruct (0 <? mtries) eqn:Hpos; rewrite ?Hf; try reflexivity.
  apply Z.ltb_lt in Hpos. lia.
Qed.

(** So does an attempt that raises an exception that is not retried. *)
Lemma retry_loop_permanent fuel mtries w e w' :
  (Z.to_nat mtries <= fuel)%nat ->
  f w = (Raises e, w') -> ExceptionToCheck e = false ->
  retry_loop fuel mtries w = Some ([Called], w', Raised e).
Proof.
  intros Hfuel Hf He.
  destruct fuel as [|fuel]; cbn [retry_loop]; unfold final_attempt;
    destruct (0 <? mtries) eqn:Hpos; rewrite ?Hf, ?He; try reflexivity.
  apply Z.ltb_lt in Hpos. lia.
Qed.

Lemma f_retry_rounds k w :
  0 <= delay -> (k <= Z.to_nat tries)%nat ->
  (forall j, (j < k)%nat -> transient (outcome_at j w)) ->
  f_retry w =
  emit (failed_rounds k w)
       (retry_loop (Z.to_nat tries - k) (tries - Z.of_nat k) (world_after k w)).
Proof.
  intros Hd Hk Hall. unfold f_retry.
  apply retry_loop_rounds; auto.
Qed.

Lemma world_after_S n w : world_after (S n) w = snd (f (world_after n w)).
Proof.
  revert w. induction n as [|n IH]; intros w; [reflexivity|].
  change (world_after (S (S n)) w) with (world_after (S n) (snd (f w))).
  rewrite IH. reflexivity.
Qed.

Lemma outcome_at_f n w o w' :
  f (world_after n w) = (o, w') -> outcome_at n w = o /\ world_after (S n) w = w'.
Proof.
  intros Hf. unfold outcome_at. rewrite world_after_S, Hf. split; reflexivity.
Qed.

(** Every failing round adds the same four events: the call, the two
    printed lines, the pause. *)
Lemma failed_rounds_snoc k :
  forall w,
    (forall j, (j < S k)%nat -> transient (outcome_at j w)) ->
    exists e,
      outcome_at k w = Raises e /\
      failed_rounds (S k) w =
      failed_rounds k w ++
      [Called; Printed (str_exn e); Printed retrying_notice; Slept delay].
Proof.
  induction k as [|k IH]; intros w Hall.
  - pose proof (Hall O ltac:(lia)) as H0.
    unfold outcome_at in *. cbn [world_after failed_rounds] in *.
    destruct (f w) as [[a|e] w'] eqn:Hf; cbn [fst transient] in *;
      [contradiction|].
    exists e. split; reflexivity.
  - pose proof (Hall O ltac:(lia)) as H0.
    pose proof (transient_shift (S k) w Hall) as Hrest.
    destruct (IH (snd (f w)) Hrest) as (e & Ho & Hr).
    exists e. split; [exact Ho|].
    unfold outcome_at in H0. cbn [world_after] in H0.
    change (failed_rounds (S (S k)) w) with
      (match f w with
       | (Raises e0, w') =>
           [Called; Printed (str_exn e0); Printed retrying_notice; Slept delay]
             ++ failed_rounds (S k) w'
       | (Returns _, _) => []
       end).
    change (failed_rounds (S k) w) with
      (match f w with
       | (Raises e0, w') =>
           [Called; Printed (str_exn e0); Printed retrying_notice; Slept delay]
             ++ failed_rounds k w'
       | (Returns _, _) => []
       end).
    destruct (f w) as [[a|e0] w'] eqn:Hf; cbn [fst snd transient] in *;
      [contradiction|].
    rewrite Hr, <- app_assoc. reflexivity.
Qed.

(** C2.  Let [n] be the budget [tries].  When each of the first [n]
    attempts fails with a retried exception, the trace of [f_retry] is
    exactly [n] rounds (the call of [f], the exception printed, the
    notice printed, a pause of [delay]) followed by one more call of
    [f]: [n + 1] calls and [n] pauses in all.  If that last call fails
    the same way, the fatal line is printed, the process exits with
    status 1 and nothing is returned; if it succeeds its value is
    returned.  And whenever attempt number [k <= n] is the first one
    that does not fail, the trace is [k] rounds and that call, and its
    value is returned: nothing is attempted after a success. *)
Theorem retry_budget_then_final_attempt (w : W) :
  0 <= delay ->
  ((forall j, (j < Z.to_nat tries)%nat -> transient (outcome_at j w)) ->
   (forall j, (j < Z.to_nat tries)%nat ->
      exists e,
        outcome_at j w = Raises e /\
        failed_rounds (S j) w =
        failed_rounds j w ++
        [Called; Printed (str_exn e); Printed retrying_notice; Slept delay]) /\
   exists tr r,
     f_retry w = Some (tr, world_after (S (Z.to_nat tries)) w, r) /\
     calls tr = S (Z.to_nat tries) /\
     sleeps tr = repeat delay (Z.to_nat tries) /\
     match outcome_at (Z.to_nat tries) w with
     | Returns a =>
         tr = failed_rounds (Z.to_nat tries) w ++ [Called] /\ r = Returned a
     | Raises e =>
         if ExceptionToCheck e
         then tr = failed_rounds (Z.to_nat tries) w ++
                   [Called; Printed ("Fatal Error: " +:+ str_exn e)] /\
              r = Exited 1
         else tr = failed_rounds (Z.to_nat tries) w ++ [Called] /\
              r = Raised e
     end) /\
  (forall k a,
     (k <= Z.to_nat tries)%nat ->
     (forall j, (j < k)%nat -> transient (outcome_at j w)) ->
     outcome_at k w = Returns a ->
     exists tr,
       f_retry w = Some (tr, world_after (S k) w, Returned a) /\
       tr = failed_rounds k w ++ [Called] /\
       calls tr = S k /\ sleeps tr = repeat delay k).
Proof.
  intros Hd. split.
  - intros Hall. split.
    { intros j Hj. apply failed_rounds_snoc.
      intros j' Hj'. apply Hall. lia. }
    rewrite (f_retry_rounds (Z.to_nat tries) w Hd (Nat.le_refl _) Hall).
    destruct (failed_rounds_calls _ w Hall) as [Hc Hs].
    replace (tries - Z.of_nat (Z.to_nat tries)) with (Z.min tries 0) by lia.
    rewrite Nat.sub_diag. cbn [retry_loop].
    destruct (0 <? Z.min tries 0) eqn:Hpos; [apply Z.ltb_lt in Hpos; lia|].
    unfold final_attempt.
    destruct (f (world_after (Z.to_nat tries) w)) as [o w'] eqn:Hf.
    destruct (outcome_at_f _ _ _ _ Hf) as [Ho Hw]. rewrite Ho, Hw.
    destruct o as [a|e]; [|destruct (ExceptionToCheck e)]; cbn [emit];
      eexists _, _; (split; [reflexivity|]);
      rewrite calls_app, sleeps_app, Hc, Hs; cbn [calls sleeps];
      rewrite (app_nil_r (repeat delay (Z.to_nat tries)));
      (split; [lia|split; [reflexivity|split; reflexivity]]).
  - intros k a Hk Hall Ho.
    rewrite (f_retry_rounds k w Hd Hk Hall).
    destruct (failed_rounds_calls _ w Hall) as [Hc Hs].
    destruct (f (world_after k w)) as [o w'] eqn:Hf.
    destruct (outcome_at_f _ _ _ _ Hf) as [Ho' Hw]. rewrite Hw.
    rewrite Ho in Ho'. subst o.
    rewrite (retry_loop_success (Z.to_nat tries - k) (tries - Z.of_nat k)
               _ _ _ ltac:(lia) Hf). cbn [emit].
    eexists. split; [reflexivity|]. split; [reflexivity|].
    rewrite calls_app, sleeps_app, Hc, Hs. cbn [calls sleeps].
    rewrite app_nil_r. split; [lia|reflexivity].
Qed.

(** C7.  When attempt number [k] (within the budget, the earlier ones
    having been retried) raises an exception that is not of the retried
    class, that exception leaves [f_retry]; the call of [f] that raised
    it is the last event: no pause, no message, no further call. *)
Theorem permanent_failure_propagates (w : W) (k : nat) (e : E) :
  0 <= delay ->
  (k <= Z.to_nat tries)%nat ->
  (forall j, (j < k)%nat -> transient (outcome_at j w)) ->
  outcome_at k w = Raises e ->
  ExceptionToCheck e = false ->
  f_retry w =
    Some (failed_rounds k w ++ [Called], world_after (S k) w, Raised e) /\
  calls (failed_rounds k w ++ [Called]) = S k /\
  sleeps (failed_rounds k w ++ [Called]) = repeat delay k.
Proof.
  intros Hd Hk Hall Ho He.
  rewrite (f_retry_rounds k w Hd Hk Hall).
  destruct (failed_rounds_calls _ w Hall) as [Hc Hs].
  destruct (f (world_after k w)) as [o w'] eqn:Hf.
  destruct (outcome_at_f _ _ _ _ Hf) as [Ho' Hw]. rewrite Hw.
  rewrite Ho in Ho'. subst o.
  rewrite (retry_loop_permanent (Z.to_nat tries - k) (tries - Z.of_nat k)
             _ _ _ ltac:(lia) Hf He). cbn [emit].
  split; [reflexivity|].
  rewrite calls_app, sleeps_app, Hc, Hs. cbn [calls sleeps].
  rewrite app_nil_r. split; [lia|reflexivity].
Qed.

(** *** What holds of every run *)

(** The shape of any run of the loop: at least one call and at most one
    more than the budget, a pause of [delay] before every call but the
    first, and the state reached by that many calls of [f]. *)
Lemma retry_loop_shape fuel :
  forall mtries w,
    (Z.to_nat mtries <= fuel)%nat ->
    exists tr w' r,
      retry_loop fuel mtries w = Some (tr, w', r) /\
      (1 <= calls tr <= S (Z.to_nat mtries))%nat /\
      sleeps tr = repeat delay (calls tr - 1) /\
      w' = world_after (calls tr) w.
Proof.
  induction fuel as [|fuel IH]; intros mtries w Hfuel; cbn [retry_loop].
  - destruct (0 <? mtries) eqn:Hpos; [apply Z.ltb_lt in Hpos; lia|].
    unfold final_attempt. destruct (f w) as [[a|e] w1] eqn:Hf;
      [|destruct (ExceptionToCheck e)];
      eexists _, _, _; (split; [reflexivity|]); cbn [calls sleeps repeat Nat.sub world_after];
      rewrite Hf; repeat split; lia.
  - destruct (0 <? mtries) eqn:Hpos.
    + apply Z.ltb_lt in Hpos.
      destruct (f w) as [[a|e] w1] eqn:Hf.
      * eexists _, _, _. split; [reflexivity|].
        cbn [calls sleeps repeat Nat.sub world_after]. rewrite Hf.
        repeat split; lia.
      * destruct (ExceptionToCheck e).
        -- destruct (delay <? 0).
           ++ eexists _, _, _. split; [reflexivity|].
              cbn [calls sleeps repeat Nat.sub world_after]. rewrite Hf.
              repeat split; lia.
           ++ destruct (IH (mtries - 1) w1 ltac:(lia))
                as (tr & w' & r & Hrun & Hcalls & Hsleeps & Hw).
              rewrite Hrun. cbn [emit]. eexists _, _, _.
              split; [reflexivity|].
              cbn [app calls sleeps]. rewrite Hsleeps.
              destruct (calls tr) as [|n] eqn:Hn; [lia|].
              cbn [Nat.sub world_after repeat]. rewrite Nat.sub_0_r, Hf.
              cbn [snd]. cbn [world_after] in Hw.
              repeat split; try lia; assumption.
        -- eexists _, _, _. split; [reflexivity|].
           cbn [calls sleeps repeat Nat.sub world_after]. rewrite Hf.
           repeat split; lia.
    + unfold final_attempt. destruct (f w) as [[a|e] w1] eqn:Hf;
        [|destruct (ExceptionToCheck e)];
        eexists _, _, _; (split; [reflexivity|]);
        cbn [calls sleeps repeat Nat.sub world_after];
        rewrite Hf; repeat split; lia.
Qed.



Lemma retry_loop_outcome fuel :
  forall mtries w tr w' r,
    0 <= delay ->
    (Z.to_nat mtries <= fuel)%nat ->
    retry_loop fuel mtries w = Some (tr, w', r) ->
    (forall j, (j < calls tr - 1)%nat -> transient (outcome_at j w)) /\
    match r with
    | Returned a => outcome_at (calls tr - 1) w = Returns a
    | Raised e =>
        outcome_at (calls tr - 1) w = Raises e /\ ExceptionToCheck e = false
    | Exited status =>
        status = 1 /\ calls tr = S (Z.to_nat mtries) /\
        transient (outcome_at (Z.to_nat mtries) w)
    end.
Proof.
  assert (Hlast : forall mtries w tr w' r,
             Z.to_nat mtries = O ->
             final_attempt w = (tr, w', r) ->
             (forall j, (j < calls tr - 1)%nat -> transient (outcome_at j w)) /\
             match r with
             | Returned a => outcome_at (calls tr - 1) w = Returns a
             | Raised e =>
                 outcome_at (calls tr - 1) w = Raises e /\
                 ExceptionToCheck e = false
             | Exited status =>
                 status = 1 /\ calls tr = S (Z.to_nat mtries) /\
                 transient (outcome_at (Z.to_nat mtries) w)
             end).
  { intros mtries w tr w' r Hzero Hrun. unfold final_attempt in Hrun.
    rewrite Hzero. unfold outcome_at.
    destruct (f w) as [[a|e] w1] eqn:Hf;
      [|destruct (ExceptionToCheck e) eqn:He];
      injection Hrun as <- <- <-; cbn [calls Nat.sub world_after];
      rewrite Hf; cbn [fst transient];
      (split; [intros j Hj; lia|]); auto. }
  induction fuel as [|fuel IH]; intros mtries w tr w' r Hd Hfuel Hrun;
    cbn [retry_loop] in Hrun.
  - destruct (0 <? mtries) eqn:Hpos; [discriminate|].
    injection Hrun as Hrun. apply (Hlast mtries w tr w' r); [lia|exact Hrun].
  - destruct (0 <? mtries) eqn:Hpos.
    + apply Z.ltb_lt in Hpos.
      destruct (f w) as [[a|e] w1] eqn:Hf.
      * injection Hrun as <- <- <-. cbn [calls Nat.sub]. unfold outcome_at.
        cbn [world_after]. rewrite Hf. split; [intros j Hj; lia|reflexivity].
      * destruct (ExceptionToCheck e) eqn:He.
        -- destruct (delay <? 0) eqn:Hneg; [apply Z.ltb_lt in Hneg; lia|].
           destruct (retry_loop fuel (mtries - 1) w1)
             as [[[tr1 w1'] r1]|] eqn:Hrec; [|discriminate].
           cbn [emit] in Hrun. injection Hrun as <- <- <-.
           destruct (IH (mtries - 1) w1 tr1 w1' r1 Hd ltac:(lia) Hrec)
             as [Hbefore Hres].
           destruct (retry_loop_shape fuel (mtries - 1) w1 ltac:(lia))
             as (tr2 & w2 & r2 & Hrun2 & Hcalls & _).
           rewrite Hrec in Hrun2. injection Hrun2 as <- <- <-.
           cbn [app calls]. destruct (calls tr1) as [|n] eqn:Hn; [lia|].
           cbn [Nat.sub] in *. rewrite Nat.sub_0_r in *.
           assert (Hstep : forall j, outcome_at (S j) w = outcome_at j w1).
           { intros j. unfold outcome_at. cbn [world_after]. rewrite Hf.
             reflexivity. }
           split.
           ++ intros [|j] Hj.
              ** unfold outcome_at. cbn [world_after]. rewrite Hf. exact He.
              ** rewrite Hstep. apply Hbefore. lia.
           ++ destruct r1 as [a|e1|status]; rewrite ?Hstep; auto.
              destruct Hres as (Hs & Hc & Ht).
              replace (Z.to_nat mtries) with (S (Z.to_nat (mtries - 1))) by lia.
              rewrite Hstep. repeat split; auto; lia.
        -- injection Hrun as <- <- <-. cbn [calls Nat.sub]. unfold outcome_at.
           cbn [world_after]. rewrite Hf. split; [intros j Hj; lia|auto].
    + injection Hrun as Hrun.
      apply (Hlast mtries w tr w' r); [apply Z.ltb_ge in Hpos; lia|exact Hrun].
Qed.

(** X2.  A value returned by [f_retry] is the value of its last call of [f];
    an exception that leaves it was raised by the last call and is not of
    the retried class; and the process exits, with status 1, only when
    the budget is used up: all the [tries + 1] calls failed with a
    retried exception.  In every case all the calls before the last
    failed with a retried exception. *)
Theorem f_retry_outcome_sound (w : W) tr w' r :
  0 <= delay ->
  f_retry w = Some (tr, w', r) ->
  (forall j, (j < calls tr - 1)%nat -> transient (outcome_at j w)) /\
  match r with
  | Returned a => outcome_at (calls tr - 1) w = Returns a
  | Raised e =>
      outcome_at (calls tr - 1) w = Raises e /\ ExceptionToCheck e = false
  | Exited status =>
      status = 1 /\ calls tr = S (Z.to_nat tries) /\
      transient (outcome_at (Z.to_nat tries) w)
  end.
Proof.
  intros Hd Hrun. eapply retry_loop_outcome; [exact Hd| |exact Hrun]. lia.
Qed.

Lemma retry_loop_failure_preserves (P : W -> Prop) :
  (forall w0 e w1, f w0 = (Raises e, w1) -> P w0 -> P w1) ->
  forall fuel mtries w tr w' r,
    P w ->
    retry_loop fuel mtries w = Some (tr, w', r) ->
    (forall a, r <> Returned a) ->
    P w'.
Proof.
  intros Hkeep.
  assert (Hlast : forall w tr w' r,
             P w -> final_attempt w = (tr, w', r) ->
             (forall a, r <> Returned a) -> P w').
  { intros w tr w' r HP Hrun Hr. unfold final_attempt in Hrun.
    destruct (f w) as [[a|e] w1] eqn:Hf.
    - injection Hrun as <- <- <-. exfalso. apply (Hr a). reflexivity.
    - destruct (ExceptionToCheck e); injection Hrun as <- <- <-;
        eapply Hkeep; eassumption. }
  induction fuel as [|fuel IH]; intros mtries w tr w' r HP Hrun Hr;
    cbn [retry_loop] in Hrun.
  - destruct (0 <? mtries); [discriminate|]. injection Hrun as Hrun.
    eapply Hlast; eassumption.
  - destruct (0 <? mtries); [|injection Hrun as Hrun; eapply Hlast; eassumption].
    destruct (f w) as [[a|e] w1] eqn:Hf.
    + injection Hrun as <- <- <-. exfalso. apply (Hr a). reflexivity.
    + assert (HP1 : P w1) by (eapply Hkeep; eassumption).
      destruct (ExceptionToCheck e); [|injection Hrun as <- <- <-; exact HP1].
      destruct (delay <? 0); [injection Hrun as <- <- <-; exact HP1|].
      destruct (retry_loop fuel (mtries - 1) w1) as [[[tr1 w1'] r1]|] eqn:Hrec;
        [|discriminate].
      cbn [emit] in Hrun. injection Hrun as <- <- <-.
      eapply IH; eassumption.
Qed.

(** X3.  What failing calls of [f] preserve, [f_retry] preserves when it does
    not return a value: a property of the state that survives every
    call of [f] that raises still holds when [f_retry] raises or exits. *)
Theorem f_retry_failure_preserves (P : W -> Prop) (w : W) tr w' r :
  (forall w0 e w1, f w0 = (Raises e, w1) -> P w0 -> P w1) ->
  P w ->
  f_retry w = Some (tr, w', r) ->
  (forall a, r <> Returned a) ->
  P w'.
Proof.
  intros Hkeep HP Hrun Hr.
  exact (retry_loop_failure_preserves P Hkeep _ _ w tr w' r HP Hrun Hr).
Qed.

End Decorator.

Arguments Returns {A E} a.
Arguments Raises {A E} e.
Arguments Returned {A E} a.
Arguments Raised {A E} e.
Arguments Exited {A E} status.

(** *** Concrete operations

    The state is the number of calls made so far; exceptions are named
    by their class. *)
Section Examples.

Definition is_connection_error (e : string) : bool :=
  String.eqb e "ConnectionError".

(** Refuses the connection [k] times, then answers. *)
Definition refused (k : nat) (n : nat) : outcome nat string * nat :=
  (if Nat.ltb n k then Raises "ConnectionError" else Returns 42%nat, S n).

(** Refuses the connection [k] times, then fails for good. *)
Definition refused_then_missing (k : nat) (n : nat)
  : outcome nat string * nat :=
  (if Nat.ltb n k then Raises "ConnectionError" else Raises "NotFoundError",
   S n).

(** [@retry(ConnectionError, tries=TIMES_TO_TRY)] around [f]. *)
Definition decorated (f : nat -> outcome nat string * nat)
  : nat -> option (list event * nat * final nat string) :=
  f_retry nat nat string is_connection_error id "ValueError"
          TIMES_TO_TRY RETRY_DELAY f.

Example decorated_never_answers :
  decorated (refused 9) O =
  Some ([Called; Printed "ConnectionError"; Printed "Retrying in 60 seconds ...";
         Slept 60;
         Called; Printed "ConnectionError"; Printed "Retrying in 60 seconds ...";
         Slept 60;
         Called; Printed "ConnectionError"; Printed "Retrying in 60 seconds ...";
         Slept 60;
         Called; Printed "Fatal Error: ConnectionError"],
        4%nat, Exited 1).
Proof. vm_compute. reflexivity. Qed.

Lemma retry_budget_then_final_attempt_witness :
  0 <= RETRY_DELAY /\
  (exists tr r,
     decorated (refused 9) O = Some (tr, 4%nat, r) /\
     calls tr = 4%nat /\ sleeps tr = [60; 60; 60] /\
     tr = [Called; Printed "ConnectionError";
           Printed "Retrying in 60 seconds ..."; Slept 60;
           Called; Printed "ConnectionError";
           Printed "Retrying in 60 seconds ..."; Slept 60;
           Called; Printed "ConnectionError";
           Printed "Retrying in 60 seconds ..."; Slept 60;
           Called; Printed "Fatal Error: ConnectionError"] /\
     r = Exited 1) /\
  (exists tr,
     decorated (refused 2) O = Some (tr, 3%nat, Returned 42%nat) /\
     tr = [Called; Printed "ConnectionError";
           Printed "Retrying in 60 seconds ..."; Slept 60;
           Called; Printed "ConnectionError";
           Printed "Retrying in 60 seconds ..."; Slept 60;
           Called] /\
     calls tr = 3%nat /\ sleeps tr = [60; 60]).
Proof.
  assert (Hd : 0 <= RETRY_DELAY) by (unfold RETRY_DELAY; lia).
  split; [exact Hd|]. split.
  - destruct (proj1 (retry_budget_then_final_attempt nat nat string
                       is_connection_error id "ValueError"
                       TIMES_TO_TRY RETRY_DELAY (refused 9) O Hd))
      as (_ & tr & r & Hrun & Hc & Hs & Hend).
    { intros j Hj. destruct j as [|[|[|j]]]; [reflexivity..|].
      change (Z.to_nat TIMES_TO_TRY) with 3%nat in Hj. lia. }
    exists tr, r.
    split; [exact Hrun|]. split; [exact Hc|]. split; [exact Hs|].
    exact Hend.
  - destruct (proj2 (retry_budget_then_final_attempt nat nat string
                       is_connection_error id "ValueError"
                       TIMES_TO_TRY RETRY_DELAY (refused 2) O Hd)
                2%nat 42%nat) as (tr & Hrun & Htr & Hc & Hs).
    + change (Z.to_nat TIMES_TO_TRY) with 3%nat. lia.
    + intros j Hj. destruct j as [|[|j]]; [reflexivity..|lia].
    + reflexivity.
    + exists tr.
      split; [exact Hrun|]. split; [exact Htr|]. split; [exact Hc|exact Hs].
Defined.

Lemma permanent_failure_propagates_witness :
  0 <= RETRY_DELAY /\
  decorated (refused_then_missing 1) O =
  Some ([Called; Printed "ConnectionError"; Printed "Retrying in 60 seconds ...";
         Slept 60; Called],
        2%nat, Raised "NotFoundError").
Proof.
  assert (Hd : 0 <= RETRY_DELAY) by (unfold RETRY_DELAY; lia).
  split; [exact Hd|].
  refine (proj1 (permanent_failure_propagates nat nat string
                   is_connection_error id "ValueError"
                   TIMES_TO_TRY RETRY_DELAY (refused_then_missing 1) O
                   1%nat "NotFoundError" Hd _ _ eq_refl eq_refl)).
  - change (Z.to_nat TIMES_TO_TRY) with 3%nat. lia.
  - intros j Hj. destruct j as [|j]; [reflexivity|lia].
Defined.

(** A probe that fails [k] times and then answers; the flag records
    that it has answered. *)
Definition probe (k : nat) (w : nat * bool)
  : outcome nat string * (nat * bool) :=
  if Nat.ltb (fst w) k
  then (Raises "ConnectionError", (S (fst w), snd w))
  else (Returns 42%nat, (S (fst w), true)).

Lemma f_retry_outcome_sound_witness :
  0 <= RETRY_DELAY /\
  decorated (refused 2) O =
    Some ([Called; Printed "ConnectionError";
           Printed "Retrying in 60 seconds ..."; Slept 60;
           Called; Printed "ConnectionError";
           Printed "Retrying in 60 seconds ..."; Slept 60;
           Called],
          3%nat, Returned 42%nat) /\
  outcome_at nat nat string (refused 2) 2 O = Returns 42%nat.
Proof.
  assert (Hd : 0 <= RETRY_DELAY) by (unfold RETRY_DELAY; lia).
  assert (Hrun : decorated (refused 2) O =
                 Some ([Called; Printed "ConnectionError";
                        Printed "Retrying in 60 seconds ..."; Slept 60;
                        Called; Printed "ConnectionError";
                        Printed "Retrying in 60 seconds ..."; Slept 60;
                        Called],
                       3%nat, Returned 42%nat)) by reflexivity.
  split; [exact Hd|]. split; [exact Hrun|].
  exact (proj2 (f_retry_outcome_sound nat nat string is_connection_error id
                  "ValueError" TIMES_TO_TRY RETRY_DELAY (refused 2) O
                  _ _ _ Hd Hrun)).
Defined.

Lemma f_retry_failure_preserves_witness :
  f_retry (nat * bool) nat string is_connection_error id "ValueError"
          TIMES_TO_TRY RETRY_DELAY (probe 9) (O, false) =
    Some ([Called; Printed "ConnectionError";
           Printed "Retrying in 60 seconds ..."; Slept 60;
           Called; Printed "ConnectionError";
           Printed "Retrying in 60 seconds ..."; Slept 60;
           Called; Printed "ConnectionError";
           Printed "Retrying in 60 seconds ..."; Slept 60;
           Called; Printed "Fatal Error: ConnectionError"],
          (4%nat, false), Exited 1) /\
  snd (4%nat, false) = false.
Proof.
  assert (Hrun : f_retry (nat * bool) nat string is_connection_error id
                   "ValueError" TIMES_TO_TRY RETRY_DELAY (probe 9) (O, false) =
                 Some ([Called; Printed "ConnectionError";
                        Printed "Retrying in 60 seconds ..."; Slept 60;
                        Called; Printed "ConnectionError";
                        Printed "Retrying in 60 seconds ..."; Slept 60;
                        Called; Printed "ConnectionError";
                        Printed "Retrying in 60 seconds ..."; Slept 60;
                        Called; Printed "Fatal Error: ConnectionError"],
                       (4%nat, false), Exited 1)) by reflexivity.
  split; [exact Hrun|].
  refine (f_retry_failure_preserves (nat * bool) nat string
            is_connection_error id "ValueError" TIMES_TO_TRY RETRY_DELAY
            (probe 9) (fun w => snd w = false) (O, false) _ _ _ _ eq_refl
            Hrun _).
  - intros w0 e w1 Hcall Hflag. unfold probe in Hcall.
    destruct (Nat.ltb (fst w0) 9); [|discriminate].
    injection Hcall as _ <-. exact Hflag.
  - intros a. discriminate.
Defined.

End Examples.

End Retry.

(* ===================================================================== *)
(** ** Flattening: [to_keyvalue_pairs] *)
(* ===================================================================== *)

Module Flatten.
Import Py.

Section Flattening.
Context `{PyFloat}.

(** The two objects [to_keyvalue_pairs] updates: the attribute
    [self.csv_headers] and the dictionary [out] of the enclosing loop. *)
Record flat_state : Type := {
  csv_headers : list string;
  out : list (string * scalar)
}.

(** The [else] branch: [source] is neither a [dict] nor a [list].  The
    lookup [out[header]] raises [KeyError] exactly when the key is
    absent, and the bare [except] then stores [source] itself. *)
Definition record_scalar (header_delimeter : string) (ancestors : list string)
  (source : scalar) (st : flat_state) : flat_state :=
  let header := join header_delimeter ancestors in
  {| csv_headers :=
       if str_in header (csv_headers st) then csv_headers st
       else csv_headers st ++ [header];
     out :=
       match dict_get header (out st) with
       | Some old =>
           dict_set header (PStr (py_str old +:+ "," +:+ py_str source)) (out st)
       | None => dict_set header source (out st)
       end |}.

(** [to_keyvalue_pairs(source, ancestors, header_delimeter)].  The
    recursive calls leave [header_delimeter] to its default.  The loop
    over [source.keys()] reads [source[key]], which is the value listed
    with [key]. *)
Fixpoint to_keyvalue_pairs (source : json) (ancestors : list string)
  (header_delimeter : string) (st : flat_state) : flat_state :=
  match source with
  | JDict fields =>
      (fix each (l : list (string * json)) (st : flat_state) : flat_state :=
         match l with
         | [] => st
         | (key, v) :: l' =>
             each l' (to_keyvalue_pairs v (ancestors ++ [key]) "," st)
         end) fields st
  | JList items =>
      (fix each (l : list json) (st : flat_state) : flat_state :=
         match l with
         | [] => st
         | item :: l' => each l' (to_keyvalue_pairs item ancestors "," st)
         end) items st
  | JScalar v => record_scalar header_delimeter ancestors v st
  end.

(** One round of the loop of [write_to_file]: [out = {}] and then
    [to_keyvalue_pairs(hit['_source'])]. *)
Definition flatten_with (headers : list string) (source : json) : flat_state :=
  to_keyvalue_pairs source [] "," {| csv_headers := headers; out := [] |}.

Definition flatten (source : json) : list (string * scalar) :=
  out (flatten_with [] source).

(** *** The scalar-descent rule of the specification

    [reaches x p v]: from the node [x], descending into the values of
    mappings (the key extends the path) and into the elements of
    sequences (the path is unchanged) leads to the scalar [v] along the
    field-path [p]. *)
Inductive reaches : json -> list string -> scalar -> Prop :=
| reaches_scalar v : reaches (JScalar v) [] v
| reaches_item items x p v :
    x ∈ items -> reaches x p v -> reaches (JList items) p v
| reaches_field fields k x p v :
    (k, x) ∈ fields -> reaches x p v -> reaches (JDict fields) (k :: p) v.

(** The scalars of a document with their field-paths, in the order of the
    traversal. *)
Fixpoint leaves (x : json) (ancestors : list string)
  : list (list string * scalar) :=
  match x with
  | JScalar v => [(ancestors, v)]
  | JList items =>
      (fix each (l : list json) : list (list string * scalar) :=
         match l with
         | [] => []
         | item :: l' => leaves item ancestors ++ each l'
         end) items
  | JDict fields =>
      (fix each (l : list (string * json)) : list (list string * scalar) :=
         match l with
         | [] => []
         | (key, v) :: l' => leaves v (ancestors ++ [key]) ++ each l'
         end) fields
  end.

(** The distinct field-paths of a document. *)
Definition field_paths (x : json) : list (list string) :=
  remove_dups (map fst (leaves x [])).

(** All the keys of the mappings inside a document. *)
Fixpoint keys_of (x : json) : list string :=
  match x with
  | JScalar _ => []
  | JList items =>
      (fix each (l : list json) : list string :=
         match l with
         | [] => []
         | item :: l' => keys_of item ++ each l'
         end) items
  | JDict fields =>
      (fix each (l : list (string * json)) : list string :=
         match l with
         | [] => []
         | (key, v) :: l' => key :: keys_of v ++ each l'
         end) fields
  end.

(** The claim that a flattened row has one entry for each distinct
    field-path: every reachable path has an entry, every entry comes from
    a reachable path, no key is listed twice, and two distinct paths do
    not share an entry. *)
Definition entry_per_field_path (x : json) : Prop :=
  (forall p v, reaches x p v -> is_Some (dict_get (join "," p) (flatten x))) /\
  (forall h, h ∈ dict_keys (flatten x) ->
             exists p v, reaches x p v /\ h = join "," p) /\
  NoDup (dict_keys (flatten x)) /\
  (forall p q v w, reaches x p v -> reaches x q w -> p <> q ->
                   join "," p <> join "," q).

(** *** The traversal as a fold over the leaves *)

Definition record_all (l : list (list string * scalar)) (st : flat_state)
  : flat_state :=
  fold_left (fun st pv => record_scalar "," (fst pv) (snd pv) st) l st.

Lemma record_all_app l1 l2 st :
  record_all (l1 ++ l2) st = record_all l2 (record_all l1 st).
Proof. unfold record_all. apply fold_left_app. Qed.

Lemma to_keyvalue_pairs_list items anc d st :
  to_keyvalue_pairs (JList items) anc d st =
  fold_left (fun st item => to_keyvalue_pairs item anc "," st) items st.
Proof.
  cbn [to_keyvalue_pairs]. revert st.
  induction items as [|item items IH]; intros st; [reflexivity|].
  cbn [fold_left]. apply IH.
Qed.

Lemma to_keyvalue_pairs_dict fields anc d st :
  to_keyvalue_pairs (JDict fields) anc d st =
  fold_left (fun st kv => to_keyvalue_pairs (snd kv) (anc ++ [fst kv]) "," st)
            fields st.
Proof.
  cbn [to_keyvalue_pairs]. revert st.
  induction fields as [|[k v] fields IH]; intros st; [reflexivity|].
  cbn [fold_left fst snd]. apply IH.
Qed.

Lemma leaves_list items anc :
  leaves (JList items) anc = concat (map (fun item => leaves item anc) items).
Proof.
  cbn [leaves]. induction items as [|item items IH]; [reflexivity|].
  cbn [map concat]. rewrite IH. reflexivity.
Qed.

Lemma leaves_dict fields anc :
  leaves (JDict fields) anc =
  concat (map (fun kv => leaves (snd kv) (anc ++ [fst kv])) fields).
Proof.
  cbn [leaves]. induction fields as [|[k v] fields IH]; [reflexivity|].
  cbn [map concat fst snd]. rewrite IH. reflexivity.
Qed.

(** [to_keyvalue_pairs] records the leaves one after the other, in the
    order of the traversal. *)
Lemma to_keyvalue_pairs_leaves x :
  forall anc st, to_keyvalue_pairs x anc "," st = record_all (leaves x anc) st.
Proof.
  induction x as [v|items IH|fields IH] using json_ind_nested; intros anc st.
  - reflexivity.
  - rewrite to_keyvalue_pairs_list, leaves_list. revert st.
    induction IH as [|item items Hitem _ IHitems]; intros st; [reflexivity|].
    cbn [fold_left map concat]. rewrite record_all_app, Hitem. apply IHitems.
  - rewrite to_keyvalue_pairs_dict, leaves_dict. revert st.
    induction IH as [|[k v] fields Hitem _ IHfields]; intros st; [reflexivity|].
    cbn [fold_left map concat fst snd] in *.
    rewrite record_all_app, Hitem. apply IHfields.
Qed.

(** *** The leaves are what the scalar-descent rule reaches *)

Lemma in_concat_map {X Y : Type} (g : X -> list Y) (l : list X) (y : Y) :
  y ∈ concat (map g l) <-> exists x, x ∈ l /\ y ∈ g x.
Proof.
  rewrite list_elem_of_In, in_concat. split.
  - intros (ys & Hys & Hy). apply in_map_iff in Hys as (x & <- & Hx).
    exists x. rewrite !list_elem_of_In. auto.
  - intros (x & Hx & Hy). exists (g x). rewrite <- !list_elem_of_In.
    split; [|exact Hy]. apply list_elem_of_In, in_map, list_elem_of_In, Hx.
Qed.

Lemma leaves_reaches x :
  forall anc p v,
    (p, v) ∈ leaves x anc -> exists q, p = anc ++ q /\ reaches x q v.
Proof.
  induction x as [v0|items IH|fields IH] using json_ind_nested;
    intros anc p v Hin.
  - cbn [leaves] in Hin. apply list_elem_of_singleton in Hin.
    injection Hin as -> ->. exists []. rewrite app_nil_r.
    split; [reflexivity|constructor].
  - rewrite leaves_list in Hin.
    apply in_concat_map in Hin as (item & Hitem & Hin).
    rewrite Forall_forall in IH.
    destruct (IH item Hitem anc p v Hin) as (q & -> & Hq).
    exists q. split; [reflexivity|]. econstructor; eassumption.
  - rewrite leaves_dict in Hin.
    apply in_concat_map in Hin as ([k y] & Hitem & Hin).
    rewrite Forall_forall in IH.
    destruct (IH (k, y) Hitem (anc ++ [k]) p v Hin) as (q & -> & Hq).
    exists (k :: q). rewrite <- app_assoc. split; [reflexivity|].
    econstructor; eassumption.
Qed.

Lemma reaches_leaves x q v :
  reaches x q v -> forall anc, (anc ++ q, v) ∈ leaves x anc.
Proof.
  induction 1 as [v|items x p v Hx _ IH|fields k x p v Hx _ IH]; intros anc.
  - rewrite app_nil_r. cbn [leaves]. apply list_elem_of_singleton. reflexivity.
  - rewrite leaves_list. apply in_concat_map.
    exists x. split; [exact Hx|apply IH].
  - rewrite leaves_dict. apply in_concat_map.
    exists (k, x). split; [exact Hx|].
    specialize (IH (anc ++ [k])). rewrite <- app_assoc in IH. exact IH.
Qed.

(** Only keys of mappings become segments of a field-path. *)
Lemma reaches_segments x p v :
  reaches x p v -> Forall (fun seg => seg ∈ keys_of x) p.
Proof.
  induction 1 as [v|items x p v Hx _ IH|fields k x p v Hx _ IH].
  - constructor.
  - eapply Forall_impl; [exact IH|]. intros seg Hseg. cbn [keys_of].
    clear IH. induction items as [|y items IHi].
    + apply elem_of_nil in Hx. contradiction.
    + apply elem_of_app. apply elem_of_cons in Hx as [->|Hx]; [left|right]; auto.
  - assert (Hsub : forall seg, seg = k \/ seg ∈ keys_of x ->
                               seg ∈ keys_of (JDict fields)).
    { intros seg Hseg. cbn [keys_of].
      clear IH. induction fields as [|[k' y] fields IHf].
      - apply elem_of_nil in Hx. contradiction.
      - apply elem_of_cons in Hx as [Heq|Hx].
        + injection Heq as <- <-. destruct Hseg as [->|Hseg].
          * apply elem_of_cons. left. reflexivity.
          * apply elem_of_cons. right. apply elem_of_app. left. exact Hseg.
        + apply elem_of_cons. right. apply elem_of_app. right. auto. }
    constructor.
    + apply Hsub. left. reflexivity.
    + eapply Forall_impl; [exact IH|]. intros seg Hseg. apply Hsub. right.
      exact Hseg.
Qed.

(** *** The keys of the flattened row *)

Lemma record_scalar_keys anc v st :
  dict_keys (out (record_scalar "," anc v st)) =
  if decide (join "," anc ∈ dict_keys (out st))
  then dict_keys (out st)
  else dict_keys (out st) ++ [join "," anc].
Proof.
  unfold record_scalar. cbn [out].
  destruct (decide (join "," anc ∈ dict_keys (out st))) as [Hin|Hnin].
  - destruct (dict_get (join "," anc) (out st)) eqn:Hget;
      apply dict_set_keys_present, Hin.
  - apply dict_get_None in Hnin as Hget. rewrite Hget.
    apply dict_set_keys_absent, Hnin.
Qed.

Lemma record_all_keys l :
  forall st,
    NoDup (dict_keys (out st)) ->
    NoDup (dict_keys (out (record_all l st))) /\
    (forall h, h ∈ dict_keys (out (record_all l st)) <->
               h ∈ dict_keys (out st) \/
               exists pv, pv ∈ l /\ h = join "," (fst pv)).
Proof.
  induction l as [|[p v] l IH]; intros st Hnd.
  - split; [exact Hnd|]. intros h. split; [auto|].
    intros [Hh|(pv & Hpv & _)]; [exact Hh|].
    apply elem_of_nil in Hpv. contradiction.
  - change (record_all ((p, v) :: l) st)
      with (record_all l (record_scalar "," p v st)).
    pose proof (record_scalar_keys p v st) as Hkeys.
    destruct (decide (join "," p ∈ dict_keys (out st))) as [Hin|Hnin].
    + destruct (IH (record_scalar "," p v st)) as [Hnd' Hiff];
        [rewrite Hkeys; exact Hnd|].
      split; [exact Hnd'|]. intros h. rewrite Hiff, Hkeys. split.
      * intros [Hh|(pv & Hpv & ->)]; [auto|].
        right. exists pv. split; [apply elem_of_cons; auto|reflexivity].
      * intros [Hh|(pv & Hpv & ->)]; [auto|].
        apply elem_of_cons in Hpv as [->|Hpv]; [left; exact Hin|].
        right. exists pv. auto.
    + destruct (IH (record_scalar "," p v st)) as [Hnd' Hiff].
      { rewrite Hkeys. apply NoDup_app. split; [exact Hnd|]. split.
        - intros h Hh Hh'. apply list_elem_of_singleton in Hh'. congruence.
        - apply NoDup_singleton. }
      split; [exact Hnd'|]. intros h. rewrite Hiff, Hkeys, elem_of_app.
      rewrite list_elem_of_singleton. split.
      * intros [[Hh| ->]|(pv & Hpv & ->)]; [auto| |].
        -- right. exists (p, v). split; [apply elem_of_cons; auto|reflexivity].
        -- right. exists pv. split; [apply elem_of_cons; auto|reflexivity].
      * intros [Hh|(pv & Hpv & ->)]; [auto|].
        apply elem_of_cons in Hpv as [->|Hpv]; [left; right; reflexivity|].
        right. exists pv. auto.
Qed.

Lemma flatten_keys x :
  NoDup (dict_keys (flatten x)) /\
  (forall h, h ∈ dict_keys (flatten x) <->
             exists p v, reaches x p v /\ h = join "," p).
Proof.
  unfold flatten, flatten_with. rewrite to_keyvalue_pairs_leaves.
  destruct (record_all_keys (leaves x []) {| csv_headers := []; out := [] |})
    as [Hnd Hiff]; [apply NoDup_nil_2|].
  split; [exact Hnd|]. intros h. rewrite Hiff. cbn [out dict_keys map]. split.
  - intros [Hh|([p v] & Hpv & ->)]; [apply elem_of_nil in Hh; contradiction|].
    apply leaves_reaches in Hpv as (q & -> & Hq). eauto.
  - intros (p & v & Hreach & ->). right. exists (p, v).
    split; [|reflexivity]. apply (reaches_leaves x p v Hreach []).
Qed.

(** *** When joining keeps field-paths apart *)

Fixpoint comma_free (s : string) : bool :=
  match s with
  | EmptyString => true
  | String c s' => negb (Ascii.eqb c ",") && comma_free s'
  end.

(** What follows the first segment of a joined path. *)
Definition join_tail (p : list string) : string :=
  match p with
  | [] => EmptyString
  | _ :: _ => "," +:+ join "," p
  end.

Lemma join_cons a p : join "," (a :: p) = a +:+ join_tail p.
Proof.
  destruct p as [|b p]; cbn [join_tail]; unfold join; cbn [String.concat].
  - symmetry. apply str_app_nil_r.
  - reflexivity.
Qed.

Lemma comma_free_split a :
  forall b p q,
    comma_free a = true -> comma_free b = true ->
    a +:+ join_tail p = b +:+ join_tail q ->
    a = b /\ join_tail p = join_tail q.
Proof.
  induction a as [|c a IH]; intros [|c' b] p q Ha Hb Heq;
    rewrite ?str_app_nil_l, ?str_app_cons in Heq.
  - split; [reflexivity|exact Heq].
  - destruct p as [|x p]; cbn [join_tail] in Heq; [discriminate|].
    rewrite str_app_cons in Heq. injection Heq as <- _.
    cbn in Hb. discriminate.
  - destruct q as [|x q]; cbn [join_tail] in Heq; [discriminate|].
    rewrite str_app_cons in Heq. injection Heq as -> _.
    cbn in Ha. discriminate.
  - injection Heq as <- Heq.
    cbn [comma_free] in Ha, Hb.
    apply andb_prop in Ha as [_ Ha]. apply andb_prop in Hb as [_ Hb].
    destruct (IH b p q Ha Hb Heq) as [-> Htail]. split; [reflexivity|exact Htail].
Qed.

Lemma join_inj p :
  forall q,
    p <> [] -> q <> [] ->
    Forall (fun seg => comma_free seg = true) p ->
    Forall (fun seg => comma_free seg = true) q ->
    join "," p = join "," q -> p = q.
Proof.
  induction p as [|a p IH]; intros [|b q] Hp Hq Fp Fq Heq; try congruence.
  rewrite !join_cons in Heq.
  apply Forall_cons in Fp as [Ha Fp]. apply Forall_cons in Fq as [Hb Fq].
  destruct (comma_free_split a b p q Ha Hb Heq) as [-> Htail].
  f_equal. destruct p as [|a' p], q as [|b' q]; cbn [join_tail] in Htail;
    rewrite ?str_app_cons, ?str_app_nil_l in Htail;
    try reflexivity; try discriminate.
  injection Htail as Htail. apply IH; auto; congruence.
Qed.

(** *** The row of a document *)

Definition ex_doc : json :=
  JDict [("a", JDict [("b", JScalar (PInt 1));
                      ("c", JList [JScalar (PInt 2); JScalar (PInt 3)])])].

(** The value that accumulates when the scalars [vs] land, one after the
    other, on a path that holds [v]. *)
Definition accumulate (v : scalar) (vs : list scalar) : scalar :=
  fold_left (fun acc w => PStr (py_str acc +:+ "," +:+ py_str w)) vs v.

Lemma record_scalar_present anc v st old :
  dict_get (join "," anc) (out st) = Some old ->
  out (record_scalar "," anc v st) =
  dict_set (join "," anc) (PStr (py_str old +:+ "," +:+ py_str v)) (out st).
Proof. intros Hget. unfold record_scalar. cbn [out]. rewrite Hget. reflexivity. Qed.

Lemma to_keyvalue_pairs_scalars k vs :
  forall acc hs,
    str_in k hs = true ->
    fold_left (fun st item => to_keyvalue_pairs item [k] "," st)
              (map JScalar vs) {| csv_headers := hs; out := [(k, acc)] |} =
    {| csv_headers := hs; out := [(k, accumulate acc vs)] |}.
Proof.
  induction vs as [|w vs IH]; intros acc hs Hk; [reflexivity|].
  cbn [map fold_left to_keyvalue_pairs accumulate].
  unfold record_scalar at 1. cbn [csv_headers out join String.concat dict_get dict_set].
  rewrite Hk, String.eqb_refl. apply IH, Hk.
Qed.

(** C4.  The document [{a: {b: 1, c: [2, 3]}}] flattens to the two
    entries [a,b -> 1] and [a,c -> '2,3'].  In general a scalar that
    lands on a path which already holds a value is appended to that value
    after a comma: the entry keeps its place, no entry is added and the
    other entries are untouched; so the scalars of an array collapse, in
    order, into one comma-separated string. *)
Theorem flatten_appends_on_shared_path :
  flatten ex_doc = [("a,b", PInt 1); ("a,c", PStr "2,3")] /\
  (forall anc v st old,
     dict_get (join "," anc) (out st) = Some old ->
     dict_get (join "," anc) (out (record_scalar "," anc v st)) =
       Some (PStr (py_str old +:+ "," +:+ py_str v)) /\
     dict_keys (out (record_scalar "," anc v st)) = dict_keys (out st) /\
     (forall k, k <> join "," anc ->
                dict_get k (out (record_scalar "," anc v st)) =
                dict_get k (out st))) /\
  (forall k v vs,
     flatten (JDict [(k, JList (map JScalar (v :: vs)))]) =
     [(k, accumulate v vs)]).
Proof.
  split; [vm_compute; reflexivity|]. split.
  - intros anc v st old Hget.
    rewrite (record_scalar_present anc v st old Hget).
    split; [apply dict_get_set_eq|]. split.
    + apply dict_set_keys_present, dict_get_is_Some. rewrite Hget. eauto.
    + intros k Hk. apply dict_get_set_ne, Hk.
  - intros k v vs. unfold flatten, flatten_with.
    rewrite to_keyvalue_pairs_dict. cbn [fold_left fst snd app].
    rewrite to_keyvalue_pairs_list. cbn [map fold_left to_keyvalue_pairs].
    unfold record_scalar at 1.
    cbn [csv_headers out join String.concat dict_get dict_set str_in existsb app].
    rewrite to_keyvalue_pairs_scalars; [reflexivity|].
    cbn [str_in existsb]. rewrite String.eqb_refl. reflexivity.
Qed.

(** C3, as amended.  The keys of the flattened row are exactly the
    comma-joined field-paths that the scalar-descent rule reaches, each
    listed once, and every segment of such a path is a key of a mapping
    of the document (an array adds nothing to a path).  When the document
    is a mapping and none of its keys contains a comma, two distinct
    field-paths never share an entry: the row has exactly one entry for
    each distinct field-path. *)
Theorem flatten_entry_per_joined_path (x : json) :
  (forall p v, reaches x p v -> is_Some (dict_get (join "," p) (flatten x))) /\
  (forall h, h ∈ dict_keys (flatten x) ->
             exists p v, reaches x p v /\ h = join "," p) /\
  NoDup (dict_keys (flatten x)) /\
  (forall p v, reaches x p v -> Forall (fun seg => seg ∈ keys_of x) p) /\
  ((exists fields, x = JDict fields) ->
   Forall (fun k => comma_free k = true) (keys_of x) ->
   entry_per_field_path x).
Proof.
  destruct (flatten_keys x) as [Hnd Hiff].
  assert (H1 : forall p v, reaches x p v ->
                           is_Some (dict_get (join "," p) (flatten x))).
  { intros p v Hreach. apply dict_get_is_Some, Hiff. eauto. }
  assert (H2 : forall h, h ∈ dict_keys (flatten x) ->
                         exists p v, reaches x p v /\ h = join "," p).
  { intros h Hh. apply Hiff, Hh. }
  split; [exact H1|]. split; [exact H2|]. split; [exact Hnd|].
  split; [intros p v; apply reaches_segments|].
  intros [fields ->] Hfree.
  split; [exact H1|]. split; [exact H2|]. split; [exact Hnd|].
  intros p q v w Hp Hq Hne Heq. apply Hne.
  assert (Hseg : forall r u, reaches (JDict fields) r u ->
                             r <> [] /\ Forall (fun seg => comma_free seg = true) r).
  { intros r u Hr. split; [inversion Hr; congruence|].
    apply reaches_segments in Hr. rewrite Forall_forall in *.
    intros seg Hin. apply Hfree, Hr, Hin. }
  destruct (Hseg p v Hp) as [Hp0 Fp]. destruct (Hseg q w Hq) as [Hq0 Fq].
  apply join_inj; assumption.
Qed.

(** *** The values of the flattened row *)

Lemma record_all_out l :
  forall st hs,
    out (record_all l st) =
    out (record_all l {| csv_headers := hs; out := out st |}).
Proof.
  induction l as [|[p v] l IH]; intros st hs; [reflexivity|].
  change (record_all ((p, v) :: l) ?s)
    with (record_all l (record_scalar "," p v s)).
  rewrite (IH (record_scalar "," p v st)
              (csv_headers (record_scalar "," p v
                              {| csv_headers := hs; out := out st |}))).
  reflexivity.
Qed.

(** The row does not depend on the headers met before. *)
Lemma flatten_with_out hs x : out (flatten_with hs x) = flatten x.
Proof.
  unfold flatten, flatten_with. rewrite !to_keyvalue_pairs_leaves.
  apply (record_all_out (leaves x []) {| csv_headers := hs; out := [] |} []).
Qed.

(** What a path holds once one more scalar has landed on it. *)
Definition land (held : option scalar) (v : scalar) : option scalar :=
  Some match held with
       | None => v
       | Some old => PStr (py_str old +:+ "," +:+ py_str v)
       end.

(** The scalars of a traversal that land on the header [h], in order. *)
Definition scalars_at (h : string) (l : list (list string * scalar))
  : list scalar :=
  map snd (List.filter (fun pv => String.eqb (join "," (fst pv)) h) l).

Lemma record_all_value h l :
  forall st,
    dict_get h (out (record_all l st)) =
    fold_left land (scalars_at h l) (dict_get h (out st)).
Proof.
  induction l as [|[p v] l IH]; intros st; [reflexivity|].
  change (record_all ((p, v) :: l) st)
    with (record_all l (record_scalar "," p v st)).
  rewrite IH. unfold scalars_at. cbn [List.filter fst].
  destruct (String.eqb_spec (join "," p) h) as [<-|Hne].
  - cbn [map fold_left snd]. f_equal.
    unfold record_scalar. cbn [out].
    destruct (dict_get (join "," p) (out st)); apply dict_get_set_eq.
  - f_equal. unfold record_scalar. cbn [out].
    destruct (dict_get (join "," p) (out st));
      apply dict_get_set_ne; congruence.
Qed.

Lemma land_accumulate vs :
  forall v, fold_left land vs (Some v) = Some (accumulate v vs).
Proof.
  induction vs as [|w vs IH]; intros v; [reflexivity|].
  cbn [fold_left land accumulate]. apply IH.
Qed.

(** X4.  The entry of a header: nothing when no scalar lands on it; the
    scalar itself, untouched, when one does; and when several do, the
    text of the first followed by a comma and the text of each of the
    others, in the order of the traversal. *)
Theorem flatten_value (x : json) (h : string) :
  dict_get h (flatten x) =
  match scalars_at h (leaves x []) with
  | [] => None
  | v :: vs => Some (accumulate v vs)
  end.
Proof.
  unfold flatten, flatten_with.
  rewrite to_keyvalue_pairs_leaves, record_all_value. cbn [out dict_get].
  destruct (scalars_at h (leaves x [])) as [|v vs]; [reflexivity|].
  cbn [fold_left land]. apply land_accumulate.
Qed.

(** *** Flattening a row again *)

(** A row seen as a document: a mapping of scalars. *)
Definition as_document (row : list (string * scalar)) : json :=
  JDict (map (fun kv => (fst kv, JScalar (snd kv))) row).

Lemma dict_set_absent {V : Type} (k : string) (v : V) d :
  k ∉ dict_keys d -> dict_set k v d = d ++ [(k, v)].
Proof.
  induction d as [|[k' v'] d IH]; cbn [dict_set dict_keys map fst app];
    intros Hk; [reflexivity|].
  apply not_elem_of_cons in Hk as [Hne Hk].
  destruct (String.eqb_spec k k'); [congruence|]. f_equal. apply IH, Hk.
Qed.

Lemma record_flat_row row :
  forall st,
    NoDup (dict_keys (out st) ++ dict_keys row) ->
    out (fold_left
           (fun st kv => to_keyvalue_pairs (snd kv) ([] ++ [fst kv]) "," st)
           (map (fun kv => (fst kv, JScalar (snd kv))) row) st) =
    out st ++ row.
Proof.
  induction row as [|[k v] row IH]; intros st Hnd;
    cbn [map fold_left fst snd app to_keyvalue_pairs].
  - rewrite app_nil_r. reflexivity.
  - cbn [dict_keys map fst] in Hnd.
    apply NoDup_app in Hnd as (Hst & Hdisj & Hrow).
    apply NoDup_cons in Hrow as [Hk Hrow].
    assert (Hfresh : k ∉ dict_keys (out st)).
    { intros Hin. apply (Hdisj k Hin). apply elem_of_cons. left. reflexivity. }
    assert (Hout : out (record_scalar "," [k] v st) = out st ++ [(k, v)]).
    { unfold record_scalar. cbn [out join String.concat].
      apply dict_get_None in Hfresh as Hget. rewrite Hget.
      apply dict_set_absent, Hfresh. }
    rewrite IH.
    + rewrite Hout, <- app_assoc. reflexivity.
    + rewrite Hout. unfold dict_keys in *. rewrite map_app. cbn [map fst].
      rewrite <- app_assoc. cbn [app]. apply NoDup_app. split; [exact Hst|].
      split; [|apply NoDup_cons; split; assumption].
      intros h Hh Hh'. apply elem_of_cons in Hh' as [->|Hh'];
        [contradiction|].
      apply (Hdisj h Hh). apply elem_of_cons. right. exact Hh'.
Qed.

Lemma flatten_flat_row row :
  NoDup (dict_keys row) -> flatten (as_document row) = row.
Proof.
  intros Hnd. unfold flatten, flatten_with, as_document.
  rewrite to_keyvalue_pairs_dict.
  apply (record_flat_row row {| csv_headers := []; out := [] |}). exact Hnd.
Qed.

(** X5.  Flattening is idempotent: a flattened row, read as a document,
    flattens to itself (same keys, same values, same order). *)
Theorem flatten_idempotent (x : json) :
  flatten (as_document (flatten x)) = flatten x.
Proof. apply flatten_flat_row. apply flatten_keys. Qed.

(** *** The headers met *)

Lemma record_scalar_headers p v st :
  csv_headers (record_scalar "," p v st) =
  if str_in (join "," p) (csv_headers st) then csv_headers st
  else csv_headers st ++ [join "," p].
Proof. reflexivity. Qed.

Lemma record_all_headers l :
  forall st,
    exists added,
      csv_headers (record_all l st) = csv_headers st ++ added /\
      (NoDup (csv_headers st) -> NoDup (csv_headers st ++ added)) /\
      (forall h, h ∈ added <->
                 (h ∉ csv_headers st) /\
                 exists pv, pv ∈ l /\ h = join "," (fst pv)).
Proof.
  induction l as [|[p v] l IH]; intros st.
  - exists []. rewrite app_nil_r. split; [reflexivity|]. split; [auto|].
    intros h. split.
    + intros Hh. apply elem_of_nil in Hh. contradiction.
    + intros (_ & pv & Hpv & _). apply elem_of_nil in Hpv. contradiction.
  - change (record_all ((p, v) :: l) st)
      with (record_all l (record_scalar "," p v st)).
    destruct (IH (record_scalar "," p v st)) as (added & Heq & Hnd & Hiff).
    rewrite record_scalar_headers in Heq, Hnd, Hiff.
    destruct (str_in (join "," p) (csv_headers st)) eqn:Hin.
    + apply str_in_spec in Hin.
      exists added. split; [exact Heq|]. split; [exact Hnd|].
      intros h. rewrite Hiff. split.
      * intros (Hh & pv & Hpv & ->). split; [exact Hh|].
        exists pv. split; [apply elem_of_cons; auto|reflexivity].
      * intros (Hh & pv & Hpv & ->). split; [exact Hh|].
        apply elem_of_cons in Hpv as [->|Hpv]; [contradiction|].
        exists pv. auto.
    + assert (Hnin : join "," p ∉ csv_headers st).
      { intros Hx. apply str_in_spec in Hx. congruence. }
      exists (join "," p :: added).
      rewrite <- app_assoc in Heq, Hnd. cbn [app] in Heq, Hnd.
      split; [exact Heq|]. split.
      * intros Hst. apply Hnd. apply NoDup_app. split; [exact Hst|].
        split; [|apply NoDup_singleton].
        intros h Hh Hh'. apply list_elem_of_singleton in Hh'. congruence.
      * intros h. rewrite elem_of_cons, Hiff, elem_of_app,
          list_elem_of_singleton. split.
        -- intros [->|(Hh & pv & Hpv & ->)].
           ++ split; [exact Hnin|]. exists (p, v).
              split; [apply elem_of_cons; auto|reflexivity].
           ++ split; [tauto|]. exists pv.
              split; [apply elem_of_cons; auto|reflexivity].
        -- intros (Hh & pv & Hpv & ->).
           apply elem_of_cons in Hpv as [->|Hpv]; [left; reflexivity|].
           destruct (decide (join "," (fst pv) = join "," p)) as [Heq'|Hne];
             [left; exact Heq'|].
           right. split; [tauto|]. exists pv. auto.
Qed.

Lemma flatten_with_headers_spec (hs : list string) (x : json) :
  exists added,
    csv_headers (flatten_with hs x) = hs ++ added /\
    (NoDup hs -> NoDup (hs ++ added)) /\
    (forall h, h ∈ added <-> (h ∉ hs) /\ h ∈ dict_keys (flatten x)).
Proof.
  unfold flatten_with. rewrite to_keyvalue_pairs_leaves.
  destruct (record_all_headers (leaves x []) {| csv_headers := hs; out := [] |})
    as (added & Heq & Hnd & Hiff).
  cbn [csv_headers] in *. exists added. split; [exact Heq|].
  split; [exact Hnd|]. intros h. rewrite Hiff.
  destruct (flatten_keys x) as [_ Hkeys]. rewrite Hkeys. split.
  - intros (Hh & [p v] & Hpv & ->). split; [exact Hh|].
    apply leaves_reaches in Hpv as (q & -> & Hq). eauto.
  - intros (Hh & p & v & Hreach & ->). split; [exact Hh|].
    exists (p, v). split; [|reflexivity]. apply (reaches_leaves x p v Hreach []).
Qed.

(** X6.  [self.csv_headers] only grows: flattening a document keeps the
    headers met before, in their order, and appends the keys of the row
    that were not among them; no header is listed twice if none was. *)
Theorem flatten_with_headers (hs : list string) (x : json) :
  exists added,
    csv_headers (flatten_with hs x) = hs ++ added /\
    (NoDup hs -> NoDup (hs ++ added)) /\
    (forall h, h ∈ added <-> (h ∉ hs) /\ h ∈ dict_keys (flatten x)).
Proof. apply flatten_with_headers_spec. Qed.

(** *** Arrays leave no trace *)

(** X7.  An array of one element flattens as the element does, and an array
    of arrays as the concatenation of the arrays: the row of a document
    does not tell a scalar from a list holding it, nor how lists were
    nested. *)
Theorem flatten_forgets_arrays (pre post : list (string * json)) (k : string) :
  (forall x,
     flatten (JDict (pre ++ (k, JList [x]) :: post)) =
     flatten (JDict (pre ++ (k, x) :: post))) /\
  (forall xs ys,
     flatten (JDict (pre ++ (k, JList [JList xs; JList ys]) :: post)) =
     flatten (JDict (pre ++ (k, JList (xs ++ ys)) :: post))).
Proof.
  assert (Hleaves : forall y z,
             (forall anc, leaves y anc = leaves z anc) ->
             flatten (JDict (pre ++ (k, y) :: post)) =
             flatten (JDict (pre ++ (k, z) :: post))).
  { intros y z Hyz. unfold flatten, flatten_with.
    rewrite !to_keyvalue_pairs_leaves, !leaves_dict, !map_app.
    cbn [map fst snd]. rewrite Hyz. reflexivity. }
  split.
  - intros x. apply Hleaves. intros anc. rewrite leaves_list.
    cbn [map concat]. apply app_nil_r.
  - intros xs ys. apply Hleaves. intros anc. rewrite !leaves_list.
    cbn [map concat]. rewrite !leaves_list, app_nil_r, map_app, concat_app.
    reflexivity.
Qed.

End Flattening.

(** *** Concrete documents *)

Section Examples.
#[local] Existing Instance literal_float.

(** Two distinct field-paths, [a,b] (one segment) and [a] then [b],
    whose joins coincide. *)
Definition clash_doc : json :=
  JDict [("a,b", JScalar (PInt 1)); ("a", JDict [("b", JScalar (PInt 2))])].

Example flatten_clash_doc : flatten clash_doc = [("a,b", PStr "1,2")].
Proof. vm_compute. reflexivity. Qed.

Example field_paths_clash_doc : field_paths clash_doc = [["a,b"]; ["a"; "b"]].
Proof. vm_compute. reflexivity. Qed.

(** C3 as stated fails on [clash_doc]: its two distinct field-paths are
    merged into the single entry [a,b]. *)
Lemma flatten_merges_paths_through_separator : ~ entry_per_field_path clash_doc.
Proof.
  intros (_ & _ & _ & Hinj).
  apply (Hinj ["a,b"] ["a"; "b"] (PInt 1) (PInt 2)).
  - eapply reaches_field; [|constructor]. repeat constructor.
  - eapply reaches_field; [|eapply reaches_field; [|constructor]];
      repeat constructor.
  - discriminate.
  - reflexivity.
Qed.

Lemma flatten_entry_per_joined_path_witness :
  (exists fields, ex_doc = JDict fields) /\
  Forall (fun k => comma_free k = true) (keys_of ex_doc) /\
  entry_per_field_path ex_doc.
Proof.
  assert (Hdict : exists fields, ex_doc = JDict fields) by (eexists; reflexivity).
  assert (Hfree : Forall (fun k => comma_free k = true) (keys_of ex_doc))
    by (repeat constructor).
  split; [exact Hdict|]. split; [exact Hfree|].
  exact (proj2 (proj2 (proj2 (proj2 (flatten_entry_per_joined_path ex_doc))))
               Hdict Hfree).
Defined.

Lemma flatten_appends_on_shared_path_witness :
  let st := {| csv_headers := ["a,c"]; out := [("a,c", PInt 2)] |} in
  dict_get (join "," ["a"; "c"]) (out st) = Some (PInt 2) /\
  dict_get (join "," ["a"; "c"]) (out (record_scalar "," ["a"; "c"] (PInt 3) st))
    = Some (PStr "2,3").
Proof.
  intros st. split; [reflexivity|].
  exact (proj1 (proj1 (proj2 flatten_appends_on_shared_path)
                      ["a"; "c"] (PInt 3) st (PInt 2) eq_refl)).
Defined.

Lemma flatten_with_headers_witness :
  NoDup ["a,b"] /\
  exists added,
    csv_headers (flatten_with ["a,b"] ex_doc) = ["a,b"] ++ added /\
    NoDup (["a,b"] ++ added).
Proof.
  assert (Hnd : NoDup ["a,b"]) by (apply NoDup_singleton).
  split; [exact Hnd|].
  destruct (flatten_with_headers ["a,b"] ex_doc) as (added & Heq & Hkeep & _).
  exists added. split; [exact Heq|exact (Hkeep Hnd)].
Defined.

End Examples.
End Flatten.


(* ===================================================================== *)
(** ** The class [Es2csv] *)
(* ===================================================================== *)

Module Exporter.
Import Py.

(** The names bound at the top level of [es2csv.py]: its imports, its
    constants, [retry], [Es2csv] and [main]. *)
Definition module_names : list string :=
  ["os"; "sys"; "time"; "itemgetter"; "argparse"; "json"; "csv";
   "elasticsearch"; "progressbar"; "wraps"; "datetime";
   "FLUSH_BUFFER"; "CONNECTION_TIMEOUT"; "TIMES_TO_TRY"; "RETRY_DELAY";
   "META_FIELDS"; "__version__"; "retry"; "Es2csv"; "main"].

(** The line feed that ends a record. *)
Definition nl : string := String newline EmptyString.

(** *** Files *)

(** [open(name, 'w')]: the file is created, or emptied. *)
Definition open_write (name : string) (fs : gmap string string)
  : gmap string string :=
  <[name := EmptyString]> fs.

(** [open(name, 'a')]: the file is created when it does not exist. *)
Definition open_append (name : string) (fs : gmap string string)
  : gmap string string :=
  match fs !! name with
  | Some _ => fs
  | None => <[name := EmptyString]> fs
  end.

(** [file.write(text)] on a file opened for appending. *)
Definition file_write (name text : string) (fs : gmap string string)
  : gmap string string :=
  <[name := default EmptyString (fs !! name) +:+ text]> fs.

Section Es2csv.
Context `{PyFloat}.

(** A hit is a [dict]; a page is what [es.search] and [es.scroll]
    return, reduced to the three entries the program reads:
    [page['_scroll_id']], [page['hits']['hits']], [page['hits']['total']]. *)
Definition hit : Type := list (string * json).

Record page : Type := {
  scroll_id : string;
  hits : list hit;
  total : Z
}.

(** The attributes of the object that the export reads and writes; an
    attribute that was never assigned is [None], and reading it raises
    [AttributeError]. *)
Record Es2csv : Type := {
  filename : option string;
  file_type : option string;
  csv_headers : option (list string)
}.

Definition set_filename (self : Es2csv) (v : string) : Es2csv :=
  {| filename := Some v; file_type := file_type self;
     csv_headers := csv_headers self |}.

Definition set_file_type (self : Es2csv) (v : string) : Es2csv :=
  {| filename := filename self; file_type := Some v;
     csv_headers := csv_headers self |}.

Definition set_csv_headers (self : Es2csv) (v : list string) : Es2csv :=
  {| filename := filename self; file_type := file_type self;
     csv_headers := Some v |}.

(** The object after [__init__]. *)
Definition init : Es2csv :=
  {| filename := None; file_type := None; csv_headers := None |}.

(** ['{index}_{time}.{type}'.format(index=index.replace('.', '_'), ...)];
    [now] is [datetime.now().strftime(...)]. *)
Definition output_name (index now type : string) : string :=
  replace_char "." "_" index +:+ "_" +:+ now +:+ "." +:+ type.

(** [prepare_file(self, index, data, type)].  It returns [None] or [1].
    With [type == 'csv'] the call [get_headers(...)] looks up a name that
    the module never binds (see [module_names]) and that is no builtin:
    the lookup raises [NameError] before anything else of that statement
    is evaluated, after the file has been opened. *)
Definition prepare_file (self : Es2csv) (fs : gmap string string)
  (index : string) (data : list hit) (type now : string)
  : Es2csv * gmap string string * result (option Z) :=
  if Nat.eqb (length data) 0 then (self, fs, Ret None)
  else
    let self := set_filename self (output_name index now type) in
    let fs := open_write (output_name index now type) fs in
    if String.eqb type "csv" then
      (self, fs, Raise (NameError "get_headers"))
    else
      (set_file_type self type, fs, Ret (Some 1)).

(** The loop of the [json] branch of [write_to_file]. *)
Fixpoint write_json_hits (name : string) (data : list hit)
  (fs : gmap string string) : gmap string string * result unit :=
  match data with
  | [] => (fs, Ret tt)
  | hit :: data' =>
      match dict_get "_source" hit with
      | None => (fs, Raise (KeyError "_source"))
      | Some source =>
          write_json_hits name data' (file_write name (dumps source +:+ nl) fs)
      end
  end.

(** [json.dumps(out)]: [out] is a [dict] of scalars. *)
Definition dumps_row (out : list (string * scalar)) : string :=
  dumps (JDict (map (fun kv => (fst kv, JScalar (snd kv))) out)).

(** The loop of the [csv] branch; [headers] is [self.csv_headers]. *)
Fixpoint write_csv_hits (name : string) (data : list hit)
  (headers : list string) (fs : gmap string string)
  : list string * gmap string string * result unit :=
  match data with
  | [] => (headers, fs, Ret tt)
  | hit :: data' =>
      match dict_get "_source" hit with
      | None => write_csv_hits name data' headers fs
      | Some source =>
          match py_len source with
          | Raise e => (headers, fs, Raise e)
          | Ret n =>
              if Nat.ltb 0 n then
                let st := Flatten.flatten_with headers source in
                write_csv_hits name data' (Flatten.csv_headers st)
                  (file_write name (dumps_row (Flatten.out st) +:+ nl) fs)
              else write_csv_hits name data' headers fs
          end
      end
  end.

Definition write_json (self : Es2csv) (fs : gmap string string)
  (data : list hit) : Es2csv * gmap string string * result unit :=
  match filename self with
  | None => (self, fs, Raise (AttributeError "filename"))
  | Some name =>
      let (fs', r) := write_json_hits name data (open_append name fs) in
      (self, fs', r)
  end.

Definition write_csv (self : Es2csv) (fs : gmap string string)
  (data : list hit) : Es2csv * gmap string string * result unit :=
  let self := set_csv_headers self [] in
  match filename self with
  | None => (self, fs, Raise (AttributeError "filename"))
  | Some name =>
      let '(headers, fs', r) :=
        write_csv_hits name data [] (open_append name fs) in
      (set_csv_headers self headers, fs', r)
  end.

(** [write_to_file(self, data)]: two [if] statements in a row, both on
    [self.file_type]. *)
Definition write_to_file (self : Es2csv) (fs : gmap string string)
  (data : list hit) : Es2csv * gmap string string * result unit :=
  match file_type self with
  | None => (self, fs, Raise (AttributeError "file_type"))
  | Some type =>
      let '(self, fs, r) :=
        if String.eqb type "json" then write_json self fs data
        else (self, fs, Ret tt) in
      match r with
      | Raise e => (self, fs, Raise e)
      | Ret _ =>
          if String.eqb type "csv" then write_csv self fs data
          else (self, fs, Ret tt)
      end
  end.

(** *** What [write_to_file] appends in [json] mode *)

Definition has_source (h : hit) : Prop := is_Some (dict_get "_source" h).

(** The lines written for a batch: one per hit, up to the first hit
    without ['_source'], where [hit['_source']] raises. *)
Fixpoint json_lines (data : list hit) : string :=
  match data with
  | [] => EmptyString
  | hit :: data' =>
      match dict_get "_source" hit with
      | None => EmptyString
      | Some source => (dumps source +:+ nl) +:+ json_lines data'
      end
  end.

Fixpoint json_status (data : list hit) : result unit :=
  match data with
  | [] => Ret tt
  | hit :: data' =>
      match dict_get "_source" hit with
      | None => Raise (KeyError "_source")
      | Some _ => json_status data'
      end
  end.

Lemma file_write_existing name text c (fs : gmap string string) :
  fs !! name = Some c -> file_write name text fs = <[name := c +:+ text]> fs.
Proof. intros Hc. unfold file_write. rewrite Hc. reflexivity. Qed.

Lemma write_json_hits_spec name data :
  forall c (fs : gmap string string),
    fs !! name = Some c ->
    write_json_hits name data fs =
    (<[name := c +:+ json_lines data]> fs, json_status data).
Proof.
  induction data as [|h data IH]; intros c fs Hc; cbn [write_json_hits json_lines json_status].
  - rewrite str_app_nil_r, insert_id by exact Hc. reflexivity.
  - destruct (dict_get "_source" h) as [source|].
    + rewrite (file_write_existing _ _ c) by exact Hc.
      rewrite (IH (c +:+ (dumps source +:+ nl))) by apply lookup_insert_eq.
      rewrite insert_insert_eq, str_app_assoc. reflexivity.
    + rewrite str_app_nil_r, insert_id by exact Hc. reflexivity.
Qed.

Lemma open_append_lookup name (fs : gmap string string) :
  open_append name fs !! name = Some (default EmptyString (fs !! name)).
Proof.
  unfold open_append. destruct (fs !! name) as [c|] eqn:Hc; [exact Hc|].
  apply lookup_insert_eq.
Qed.

Lemma insert_open_append name c (fs : gmap string string) :
  <[name := c]> (open_append name fs) = <[name := c]> fs.
Proof.
  unfold open_append. destruct (fs !! name); [reflexivity|].
  apply insert_insert_eq.
Qed.

(** In [json] mode [write_to_file] appends the lines of the batch to the
    file and changes nothing else. *)
Lemma write_to_file_json self (fs : gmap string string) data name :
  file_type self = Some "json" -> filename self = Some name ->
  write_to_file self fs data =
  (self,
   <[name := default EmptyString (fs !! name) +:+ json_lines data]> fs,
   json_status data).
Proof.
  intros Htype Hname. unfold write_to_file, write_json.
  rewrite Htype, Hname. cbn [String.eqb Ascii.eqb Bool.eqb].
  rewrite (write_json_hits_spec name data _ _ (open_append_lookup name fs)).
  rewrite insert_open_append.
  destruct (json_status data) as [[]|e]; reflexivity.
Qed.

Lemma json_lines_app data1 data2 :
  Forall has_source data1 ->
  json_lines (data1 ++ data2) = json_lines data1 +:+ json_lines data2.
Proof.
  induction 1 as [|h data1 [source Hh] _ IH]; [reflexivity|].
  cbn [app json_lines]. rewrite Hh, IH, !str_app_assoc. reflexivity.
Qed.

Lemma json_status_ok data : Forall has_source data -> json_status data = Ret tt.
Proof.
  induction 1 as [|h data [source Hh] _ IH]; [reflexivity|].
  cbn [json_status]. rewrite Hh. exact IH.
Qed.

Lemma prepare_file_nonempty self (fs : gmap string string) index data now :
  data <> [] ->
  prepare_file self fs index data "json" now =
  (set_file_type (set_filename self (output_name index now "json")) "json",
   <[output_name index now "json" := EmptyString]> fs,
   Ret (Some 1)).
Proof.
  intros Hdata. unfold prepare_file.
  destruct data as [|h data]; [congruence|]. reflexivity.
Qed.

(** The first batch of an index: the file is created and receives the
    lines of the batch. *)
Lemma write_first_batch self (fs : gmap string string) index data now :
  write_to_file
    (set_file_type (set_filename self (output_name index now "json")) "json")
    (<[output_name index now "json" := EmptyString]> fs) data =
  (set_file_type (set_filename self (output_name index now "json")) "json",
   <[output_name index now "json" := json_lines data]> fs,
   json_status data).
Proof.
  rewrite (write_to_file_json
             (set_file_type (set_filename self (output_name index now "json"))
                            "json")
             _ data (output_name index now "json") eq_refl eq_refl).
  rewrite lookup_insert_eq, insert_insert_eq. reflexivity.
Qed.

(** *** What [write_to_file] appends in [csv] mode *)

(** The rows written for a batch, one list element per [tmp_file.write],
    up to a hit whose ['_source'] has no [len]. *)
Fixpoint csv_rows (data : list hit) (headers : list string) : list string :=
  match data with
  | [] => []
  | hit :: data' =>
      match dict_get "_source" hit with
      | None => csv_rows data' headers
      | Some source =>
          match py_len source with
          | Raise _ => []
          | Ret n =>
              if Nat.ltb 0 n then
                let st := Flatten.flatten_with headers source in
                (dumps_row (Flatten.out st) +:+ nl)
                  :: csv_rows data' (Flatten.csv_headers st)
              else csv_rows data' headers
          end
      end
  end.

(** [self.csv_headers] after the batch, and how the loop ends. *)
Fixpoint csv_end (data : list hit) (headers : list string)
  : list string * result unit :=
  match data with
  | [] => (headers, Ret tt)
  | hit :: data' =>
      match dict_get "_source" hit with
      | None => csv_end data' headers
      | Some source =>
          match py_len source with
          | Raise e => (headers, Raise e)
          | Ret n =>
              if Nat.ltb 0 n then
                csv_end data'
                  (Flatten.csv_headers (Flatten.flatten_with headers source))
              else csv_end data' headers
          end
      end
  end.

(** The text of a list of rows. *)
Definition text_of (rows : list string) : string :=
  foldr String.append EmptyString rows.

Lemma write_csv_hits_spec name data :
  forall headers c (fs : gmap string string),
    fs !! name = Some c ->
    write_csv_hits name data headers fs =
    (fst (csv_end data headers),
     <[name := c +:+ text_of (csv_rows data headers)]> fs,
     snd (csv_end data headers)).
Proof.
  assert (Hid : forall c (fs : gmap string string),
             fs !! name = Some c -> <[name := c +:+ EmptyString]> fs = fs).
  { intros c fs Hc. rewrite str_app_nil_r. apply insert_id, Hc. }
  induction data as [|h data IH]; intros headers c fs Hc;
    cbn [write_csv_hits csv_rows csv_end text_of foldr fst snd].
  - rewrite Hid by exact Hc. reflexivity.
  - destruct (dict_get "_source" h) as [source|]; [|apply IH, Hc].
    destruct (py_len source) as [n|e];
      [|cbn [text_of foldr fst snd]; rewrite Hid by exact Hc; reflexivity].
    destruct (Nat.ltb 0 n); [|apply IH, Hc].
    rewrite (file_write_existing _ _ c) by exact Hc.
    rewrite (IH _ (c +:+ (dumps_row
                            (Flatten.out (Flatten.flatten_with headers source))
                          +:+ nl))) by apply lookup_insert_eq.
    cbn [text_of foldr]. rewrite insert_insert_eq, str_app_assoc. reflexivity.
Qed.

(** In [csv] mode [write_to_file] empties [self.csv_headers], appends
    the rows of the batch to the file and leaves [self.csv_headers] at
    the headers met in the batch. *)
Lemma write_to_file_csv self (fs : gmap string string) data name :
  file_type self = Some "csv" -> filename self = Some name ->
  write_to_file self fs data =
  (set_csv_headers self (fst (csv_end data [])),
   <[name := default EmptyString (fs !! name) +:+ text_of (csv_rows data [])]> fs,
   snd (csv_end data [])).
Proof.
  intros Htype Hname. unfold write_to_file, write_csv.
  rewrite Htype. cbn [String.eqb Ascii.eqb Bool.eqb set_csv_headers filename].
  rewrite Hname.
  rewrite (write_csv_hits_spec name data _ _ _ (open_append_lookup name fs)).
  rewrite insert_open_append. reflexivity.
Qed.

Lemma csv_rows_length data :
  forall headers, (length (csv_rows data headers) <= length data)%nat.
Proof.
  induction data as [|h data IH]; intros headers; cbn [csv_rows length];
    [lia|].
  destruct (dict_get "_source" h) as [source|];
    [|specialize (IH headers); lia].
  destruct (py_len source) as [n|e]; [|cbn [length]; lia].
  destruct (Nat.ltb 0 n); cbn [length];
    [specialize (IH (Flatten.csv_headers
                       (Flatten.flatten_with headers source)))
    |specialize (IH headers)]; lia.
Qed.

(** A hit that the [csv] branch passes over: no ['_source'], or an empty
    mapping as ['_source']. *)
Definition sourceless (h : hit) : Prop :=
  dict_get "_source" h = None \/ dict_get "_source" h = Some (JDict []).

Lemma csv_skip data1 h data2 :
  sourceless h ->
  forall headers,
    csv_rows (data1 ++ h :: data2) headers = csv_rows (data1 ++ data2) headers /\
    csv_end (data1 ++ h :: data2) headers = csv_end (data1 ++ data2) headers.
Proof.
  intros Hh. induction data1 as [|h1 data1 IH]; intros headers;
    cbn [app csv_rows csv_end].
  - destruct Hh as [-> | ->]; split; reflexivity.
  - destruct (dict_get "_source" h1) as [source|]; [|apply IH].
    destruct (py_len source) as [n|e]; [|split; reflexivity].
    destruct (Nat.ltb 0 n); [|apply IH].
    destruct (IH (Flatten.csv_headers (Flatten.flatten_with headers source)))
      as [-> ->]. split; reflexivity.
Qed.

(** C9.  In [csv] mode a hit without ['_source'], or whose ['_source']
    is an empty mapping, is passed over: [write_to_file] does exactly
    what it does on the batch without that hit, so a batch that holds
    such a hit yields fewer rows than it has hits.  The rows are those
    appended to the file. *)
Theorem csv_mode_skips_sourceless_hits (self : Es2csv)
  (fs : gmap string string) (data1 data2 : list hit) (h : hit) (name : string) :
  file_type self = Some "csv" ->
  filename self = Some name ->
  sourceless h ->
  write_to_file self fs (data1 ++ h :: data2) =
    write_to_file self fs (data1 ++ data2) /\
  snd (fst (write_to_file self fs (data1 ++ h :: data2))) =
    <[name := default EmptyString (fs !! name)
              +:+ text_of (csv_rows (data1 ++ h :: data2) [])]> fs /\
  (length (csv_rows (data1 ++ h :: data2) []) < length (data1 ++ h :: data2))%nat.
Proof.
  intros Htype Hname Hh.
  destruct (csv_skip data1 h data2 Hh []) as [Hrows Hend].
  rewrite !(write_to_file_csv self fs _ name Htype Hname).
  rewrite Hrows, Hend. split; [reflexivity|]. split; [reflexivity|].
  pose proof (csv_rows_length (data1 ++ data2) []) as Hle.
  rewrite !length_app in *. cbn [length]. lia.
Qed.

(** C5, on the code as it is.  Asked for a [csv] file for a non-empty
    batch, [prepare_file] creates the file and then fails on the unbound
    name [get_headers]: no header is computed, none is written (the file
    is empty), and neither [self.file_type] nor [self.csv_headers] is
    assigned. *)
Theorem prepare_file_csv_raises_before_header (self : Es2csv)
  (fs : gmap string string) (index now : string) (data : list hit) :
  data <> [] ->
  str_in "get_headers" module_names = false /\
  prepare_file self fs index data "csv" now =
  (set_filename self (output_name index now "csv"),
   <[output_name index now "csv" := EmptyString]> fs,
   Raise (NameError "get_headers")).
Proof.
  intros Hdata. split; [reflexivity|].
  destruct data as [|h data]; [congruence|]. reflexivity.
Qed.

(** *** Every row ends its line *)

Lemma csv_rows_one_newline :
  (forall x, count_nl (float_json x) = O) ->
  forall data headers,
    Forall (fun row => exists line, row = line +:+ nl /\ count_nl line = O)
           (csv_rows data headers).
Proof.
  intros Hfloat. induction data as [|h data IH]; intros headers;
    cbn [csv_rows]; [constructor|].
  destruct (dict_get "_source" h) as [source|]; [|apply IH].
  destruct (py_len source) as [n|e]; [|constructor].
  destruct (Nat.ltb 0 n); [|apply IH].
  constructor; [|apply IH]. eexists. split; [reflexivity|].
  apply count_nl_dumps, Hfloat.
Qed.

(** *** More on [prepare_file] and [write_to_file] *)

(** X8.  A type that is neither ['json'] nor ['csv'] is accepted silently:
    [prepare_file] creates the (empty) file and returns 1, and after it
    [write_to_file] returns without writing anything, whatever the
    batch. *)
Theorem other_type_writes_nothing (self : Es2csv) (fs : gmap string string)
  (index now type : string) (data batch : list hit) :
  data <> [] -> type <> "json" -> type <> "csv" ->
  prepare_file self fs index data type now =
    (set_file_type (set_filename self (output_name index now type)) type,
     <[output_name index now type := EmptyString]> fs,
     Ret (Some 1)) /\
  write_to_file
    (set_file_type (set_filename self (output_name index now type)) type)
    (<[output_name index now type := EmptyString]> fs) batch =
    (set_file_type (set_filename self (output_name index now type)) type,
     <[output_name index now type := EmptyString]> fs,
     Ret tt).
Proof.
  intros Hdata Hjson Hcsv.
  apply String.eqb_neq in Hjson, Hcsv. split.
  - unfold prepare_file. destruct data as [|h data]; [congruence|].
    cbn [length Nat.eqb]. rewrite Hcsv. reflexivity.
  - unfold write_to_file. cbn [set_file_type file_type].
    rewrite Hjson, Hcsv. reflexivity.
Qed.

(** X9.  [write_to_file] only appends, and only to the file of the object:
    it never changes [self.filename] or [self.file_type], never touches
    another file, and what the file held before is the beginning of what
    it holds after; an object without [filename] leaves every file as it
    was. *)
Theorem write_to_file_appends (self : Es2csv) (fs : gmap string string)
  (data : list hit) :
  filename (fst (fst (write_to_file self fs data))) = filename self /\
  file_type (fst (fst (write_to_file self fs data))) = file_type self /\
  match filename self with
  | Some name =>
      (forall other, other <> name ->
                     snd (fst (write_to_file self fs data)) !! other
                     = fs !! other) /\
      (forall c, fs !! name = Some c ->
                 exists suffix,
                   snd (fst (write_to_file self fs data)) !! name
                   = Some (c +:+ suffix))
  | None => snd (fst (write_to_file self fs data)) = fs
  end.
Proof.
  assert (Hsame : forall name c (fs0 : gmap string string),
             fs0 !! name = Some c ->
             exists suffix, fs0 !! name = Some (c +:+ suffix)).
  { intros name c fs0 Hc. exists EmptyString. rewrite str_app_nil_r. exact Hc. }
  assert (Hins : forall name text (fs0 : gmap string string),
             (forall other, other <> name ->
                            <[name := default EmptyString (fs0 !! name)
                                      +:+ text]> fs0 !! other = fs0 !! other) /\
             (forall c, fs0 !! name = Some c ->
                        exists suffix,
                          <[name := default EmptyString (fs0 !! name)
                                    +:+ text]> fs0 !! name
                          = Some (c +:+ suffix))).
  { intros name text fs0. split.
    - intros other Hother. apply lookup_insert_ne. congruence.
    - intros c Hc. rewrite Hc. cbn [default from_option id].
      eexists. apply lookup_insert_eq. }
  destruct (file_type self) as [type|] eqn:Htype;
    destruct (filename self) as [name|] eqn:Hname.
  - destruct (String.eqb_spec type "json") as [->|Hjson];
      [|destruct (String.eqb_spec type "csv") as [->|Hcsv]].
    + rewrite (write_to_file_json self fs data name Htype Hname).
      cbn [fst snd]. rewrite Htype, Hname. auto.
    + rewrite (write_to_file_csv self fs data name Htype Hname).
      cbn [fst snd set_csv_headers filename file_type].
      rewrite Htype, Hname. auto.
    + apply String.eqb_neq in Hjson, Hcsv.
      unfold write_to_file. rewrite Htype, Hjson, Hcsv. cbn [fst snd].
      rewrite Htype, Hname. eauto.
  - unfold write_to_file, write_json, write_csv. rewrite Htype.
    cbn [set_csv_headers filename]. rewrite Hname.
    destruct (String.eqb type "json"); destruct (String.eqb type "csv");
      cbn [fst snd filename file_type]; rewrite ?Htype, ?Hname; auto.
  - unfold write_to_file. rewrite Htype. cbn [fst snd].
    rewrite Htype, Hname. eauto.
  - unfold write_to_file. rewrite Htype. cbn [fst snd].
    rewrite Htype, Hname. auto.
Qed.

(** X10.  In [json] mode there is no guard on ['_source']: at the first hit
    without it [write_to_file] raises [KeyError]; the lines of the hits
    before it have been written and stay in the file, the hits after it
    are not written. *)
Theorem write_to_file_json_stops_at_bare_hit (self : Es2csv)
  (fs : gmap string string) (name : string)
  (before after : list hit) (bare : hit) :
  file_type self = Some "json" -> filename self = Some name ->
  Forall has_source before -> dict_get "_source" bare = None ->
  write_to_file self fs (before ++ bare :: after) =
  (self,
   <[name := default EmptyString (fs !! name) +:+ json_lines before]> fs,
   Raise (KeyError "_source")).
Proof.
  intros Htype Hname Hbefore Hbare.
  rewrite (write_to_file_json self fs _ name Htype Hname).
  assert (Hlines : json_lines (before ++ bare :: after) = json_lines before).
  { rewrite json_lines_app by exact Hbefore. cbn [json_lines].
    rewrite Hbare. apply str_app_nil_r. }
  assert (Hstatus : json_status (before ++ bare :: after)
                    = Raise (KeyError "_source")).
  { clear Hlines. induction Hbefore as [|h before [source Hh] _ IH];
      cbn [app json_status]; [rewrite Hbare; reflexivity|].
    rewrite Hh. exact IH. }
  rewrite Hlines, Hstatus. reflexivity.
Qed.

(** X11.  In [json] mode the file does not depend on how the hits are cut
    into batches: writing two batches one after the other leaves the
    object and the files as writing their concatenation at once does. *)
Theorem write_to_file_json_batches (self : Es2csv) (fs : gmap string string)
  (name : string) (batch1 batch2 : list hit) :
  file_type self = Some "json" -> filename self = Some name ->
  Forall has_source batch1 ->
  write_to_file self (snd (fst (write_to_file self fs batch1))) batch2 =
  write_to_file self fs (batch1 ++ batch2).
Proof.
  intros Htype Hname Hsrc.
  rewrite !(write_to_file_json self _ _ name Htype Hname). cbn [fst snd].
  rewrite lookup_insert_eq, insert_insert_eq. cbn [default from_option id].
  rewrite json_lines_app, str_app_assoc by exact Hsrc. f_equal.
  clear - Hsrc. induction Hsrc as [|h batch1 [source Hh] _ IH];
    cbn [app json_status]; [reflexivity|].
  rewrite Hh. exact IH.
Qed.

(** The row of a hit in [csv] mode: none without a ['_source'] or with
    an empty one; else the dump of the flattened ['_source'], then a
    line feed. *)
Definition csv_row (h : hit) : option string :=
  match dict_get "_source" h with
  | None => None
  | Some source =>
      match py_len source with
      | Ret (S _) => Some (dumps_row (Flatten.flatten source) +:+ nl)
      | _ => None
      end
  end.

(** A hit whose ['_source'], if any, has a length. *)
Definition sized (h : hit) : Prop :=
  forall source, dict_get "_source" h = Some source ->
                 exists n, py_len source = Ret n.

(** The rows of the hits of a batch that have one, in order. *)
Fixpoint rows_of (data : list hit) : list string :=
  match data with
  | [] => []
  | h :: data' =>
      match csv_row h with
      | Some row => row :: rows_of data'
      | None => rows_of data'
      end
  end.

Lemma csv_rows_rows data :
  Forall sized data ->
  forall headers,
    csv_rows data headers = rows_of data /\
    snd (csv_end data headers) = Ret tt.
Proof.
  induction 1 as [|h data Hh _ IH]; intros headers;
    cbn [csv_rows csv_end rows_of]; [split; reflexivity|].
  unfold csv_row, sized in *.
  destruct (dict_get "_source" h) as [source|]; [|apply IH].
  destruct (Hh source eq_refl) as [n Hn]. rewrite Hn.
  destruct n as [|n]; cbn [Nat.ltb Nat.leb]; [apply IH|].
  destruct (IH (Flatten.csv_headers (Flatten.flatten_with headers source)))
    as [-> ->].
  rewrite Flatten.flatten_with_out. split; reflexivity.
Qed.

(** X12.  In [csv] mode, when every ['_source'] has a length, [write_to_file]
    appends one line per hit with a non-empty ['_source'], the dump of
    its flattened row, in the order of the batch; the row of a hit does
    not depend on the hits before it nor on [self.csv_headers]. *)
Theorem write_to_file_csv_rows (self : Es2csv) (fs : gmap string string)
  (name : string) (data : list hit) :
  file_type self = Some "csv" -> filename self = Some name ->
  Forall sized data ->
  snd (fst (write_to_file self fs data)) =
    <[name := default EmptyString (fs !! name)
              +:+ text_of (rows_of data)]> fs /\
  snd (write_to_file self fs data) = Ret tt.
Proof.
  intros Htype Hname Hsized.
  rewrite (write_to_file_csv self fs data name Htype Hname). cbn [fst snd].
  destruct (csv_rows_rows data Hsized []) as [-> ->]. split; reflexivity.
Qed.

Lemma csv_end_headers data :
  Forall sized data ->
  forall headers,
    NoDup headers ->
    NoDup (fst (csv_end data headers)) /\
    (forall h,
       h ∈ fst (csv_end data headers) <->
       h ∈ headers \/
       exists hit source n,
         hit ∈ data /\ dict_get "_source" hit = Some source /\
         py_len source = Ret (S n) /\
         h ∈ dict_keys (Flatten.flatten source)).
Proof.
  induction 1 as [|hit0 data Hsized _ IH]; intros headers Hnd;
    cbn [csv_end].
  - cbn [fst]. split; [exact Hnd|]. intros h. split; [auto|].
    intros [Hh|(hit & source & n & Hin & _)]; [exact Hh|].
    apply elem_of_nil in Hin. contradiction.
  - assert (Hskip :
      (forall source n, dict_get "_source" hit0 = Some source ->
                        py_len source <> Ret (S n)) ->
      NoDup (fst (csv_end data headers)) /\
      (forall h,
         h ∈ fst (csv_end data headers) <->
         h ∈ headers \/
         exists hit source n,
           hit ∈ hit0 :: data /\ dict_get "_source" hit = Some source /\
           py_len source = Ret (S n) /\
           h ∈ dict_keys (Flatten.flatten source))).
    { intros Hnone. destruct (IH headers Hnd) as [Hnd' Hiff].
      split; [exact Hnd'|]. intros h. rewrite Hiff. split.
      - intros [Hh|(hit & source & n & Hin & Hsrc & Hlen & Hkey)]; [auto|].
        right. exists hit, source, n. split; [apply elem_of_cons; auto|auto].
      - intros [Hh|(hit & source & n & Hin & Hsrc & Hlen & Hkey)]; [auto|].
        apply elem_of_cons in Hin as [->|Hin].
        + exfalso. exact (Hnone source n Hsrc Hlen).
        + right. exists hit, source, n. auto. }
    destruct (dict_get "_source" hit0) as [source|] eqn:Hsrc;
      [|apply Hskip; discriminate].
    destruct (Hsized source Hsrc) as [n Hn]. rewrite Hn.
    destruct n as [|n]; cbn [Nat.ltb Nat.leb].
    { apply Hskip. intros source' n' [= <-]. congruence. }
    destruct (Flatten.flatten_with_headers_spec headers source)
      as (added & Heq & Hnd1 & Hadded).
    destruct (IH (Flatten.csv_headers (Flatten.flatten_with headers source)))
      as [Hnd' Hiff]; [rewrite Heq; auto|].
    split; [exact Hnd'|]. intros h. rewrite Hiff, Heq, elem_of_app, Hadded.
    split.
    + intros [[Hh|[_ Hkey]]|(hit & source' & n' & Hin & Hs & Hl & Hk)].
      * auto.
      * right. exists hit0, source, n.
        split; [apply elem_of_cons; auto|auto].
      * right. exists hit, source', n'.
        split; [apply elem_of_cons; auto|auto].
    + intros [Hh|(hit & source' & n' & Hin & Hs & Hl & Hk)]; [auto|].
      apply elem_of_cons in Hin as [->|Hin].
      * rewrite Hsrc in Hs. injection Hs as <-.
        destruct (decide (h ∈ headers)); [auto|]. left. right. auto.
      * right. exists hit, source', n'. auto.
Qed.

(** X13.  In [csv] mode [self.csv_headers] is emptied at each call: after
    [write_to_file] it lists, each once, the keys of the rows written for
    this batch and nothing else, whatever it listed before. *)
Theorem write_to_file_csv_headers (self : Es2csv) (fs : gmap string string)
  (name : string) (data : list hit) :
  file_type self = Some "csv" -> filename self = Some name ->
  Forall sized data ->
  exists headers,
    csv_headers (fst (fst (write_to_file self fs data))) = Some headers /\
    NoDup headers /\
    (forall h,
       h ∈ headers <->
       exists hit source n,
         hit ∈ data /\ dict_get "_source" hit = Some source /\
         py_len source = Ret (S n) /\
         h ∈ dict_keys (Flatten.flatten source)).
Proof.
  intros Htype Hname Hsized.
  rewrite (write_to_file_csv self fs data name Htype Hname).
  cbn [fst set_csv_headers csv_headers].
  destruct (csv_end_headers data Hsized [] (NoDup_nil_2 (A:=string))) as [Hnd Hiff].
  eexists. split; [reflexivity|]. split; [exact Hnd|].
  intros h. rewrite Hiff. split; [|auto].
  intros [Hh|Hex]; [apply elem_of_nil in Hh; contradiction|exact Hex].
Qed.

Lemma count_nl_json_lines data :
  (forall x, count_nl (float_json x) = O) ->
  Forall has_source data -> count_nl (json_lines data) = length data.
Proof.
  intros Hfloat. induction 1 as [|h data [source Hh] _ IH]; [reflexivity|].
  cbn [json_lines length]. rewrite Hh, !count_nl_app, IH.
  rewrite (count_nl_dumps Hfloat). reflexivity.
Qed.

Lemma count_nl_csv_rows data headers :
  (forall x, count_nl (float_json x) = O) ->
  count_nl (text_of (csv_rows data headers)) = length (csv_rows data headers).
Proof.
  intros Hfloat.
  pose proof (csv_rows_one_newline Hfloat data headers) as Hrows.
  induction Hrows as [|row rows (line & -> & Hline) _ IH]; [reflexivity|].
  cbn [text_of foldr length]. fold (text_of rows).
  rewrite !count_nl_app, Hline, IH. reflexivity.
Qed.

(** X14.  [write_to_file] adds exactly one line to the file per record
    (a record ends its line and holds no other line feed, those inside
    strings being escaped by [json.dumps]): after the call the file has
    as many line feeds more than before as the batch has hits in [json]
    mode (every hit with a ['_source']), and as it has hits with a
    non-empty ['_source'] in [csv] mode. *)
Theorem one_line_per_record (self : Es2csv) (fs : gmap string string)
  (name : string) (data : list hit) :
  (forall x, count_nl (float_json x) = O) ->
  filename self = Some name ->
  (file_type self = Some "json" -> Forall has_source data ->
   exists text,
     snd (fst (write_to_file self fs data)) !! name = Some text /\
     count_nl text =
     (count_nl (default EmptyString (fs !! name)) + length data)%nat) /\
  (file_type self = Some "csv" -> Forall sized data ->
   exists text,
     snd (fst (write_to_file self fs data)) !! name = Some text /\
     count_nl text =
     (count_nl (default EmptyString (fs !! name))
      + length (rows_of data))%nat).
Proof.
  intros Hfloat Hname. split.
  - intros Htype Hsrc.
    rewrite (write_to_file_json self fs data name Htype Hname). cbn [fst snd].
    eexists. split; [apply lookup_insert_eq|].
    rewrite count_nl_app, (count_nl_json_lines data Hfloat Hsrc). reflexivity.
  - intros Htype Hsized.
    rewrite (write_to_file_csv self fs data name Htype Hname). cbn [fst snd].
    eexists. split; [apply lookup_insert_eq|].
    rewrite count_nl_app, (count_nl_csv_rows data [] Hfloat).
    destruct (csv_rows_rows data Hsized []) as [-> _]. reflexivity.
Qed.

(** *** [dump_index] over a search backend

    The Elasticsearch client is an outside collaborator: a state [B] and
    the two calls the program makes, [es.search(index=..., scroll=...,
    size=1000, body=match_all, sort='_id')] and [es.scroll(scroll_id=...,
    scroll=...)]. *)

(** The progress bar (package [progressbar]), started with
    [maxval=scroll_size]: [start()] and [update(value)] only display, but
    they raise [ValueError] for a value outside [0 .. maxval] (so
    [start()], which shows 0, for a negative [maxval]). *)
Definition bar_update (maxval value : Z) : result unit :=
  if ((0 <=? value) && (value <=? maxval))%bool then Ret tt
  else Raise (ValueError "Value out of range").

Section Backend.
Variable B : Type.
Variable es_search : B -> string -> page * B.
Variable es_scroll : B -> string -> page * B.

(** What a run of [dump_index] acts on.  [fetched] is a log: the list of
    [page['hits']['hits']] of every page received so far. *)
Record world : Type := {
  obj : Es2csv;
  files : gmap string string;
  backend : B;
  fetched : list (list hit)
}.

(** [while (scrolled < scroll_size): ...]; [None] when [fuel] runs out
    while the condition still holds. *)
Fixpoint scroll_loop (fuel : nat) (w : world) (sid : string)
  (scrolled scroll_size : Z) : option (world * result unit) :=
  if scrolled <? scroll_size then
    match fuel with
    | O => None
    | S fuel' =>
        let (page, b) := es_scroll (backend w) sid in
        let sid := scroll_id page in
        let scrolled := scrolled + Z.of_nat (length (hits page)) in
        match bar_update scroll_size scrolled with
        | Raise e =>
            Some ({| obj := obj w; files := files w; backend := b;
                     fetched := fetched w ++ [hits page] |}, Raise e)
        | Ret _ =>
            let '(self, fs, r) :=
              write_to_file (obj w) (files w) (hits page) in
            let w := {| obj := self; files := fs; backend := b;
                        fetched := fetched w ++ [hits page] |} in
            match r with
            | Raise e => Some (w, Raise e)
            | Ret _ => scroll_loop fuel' w sid scrolled scroll_size
            end
        end
    end
  else Some (w, Ret tt).

(** [dump_index(self, index)]; [prepare_file] is called without [type],
    which is then ['json']. *)
Definition dump_index (fuel : nat) (w : world) (index now : string)
  : option (world * result unit) :=
  let (page, b) := es_search (backend w) index in
  let sid := scroll_id page in
  let scrolled := Z.of_nat (length (hits page)) in
  let scroll_size := total page in
  let w := {| obj := obj w; files := files w; backend := b;
              fetched := fetched w ++ [hits page] |} in
  match bar_update scroll_size 0 with
  | Raise e => Some (w, Raise e)
  | Ret _ =>
      match bar_update scroll_size scrolled with
      | Raise e => Some (w, Raise e)
      | Ret _ =>
          let '(self, fs, r) :=
            prepare_file (obj w) (files w) index (hits page) "json" now in
          let w := {| obj := self; files := fs; backend := backend w;
                      fetched := fetched w |} in
          match r with
          | Raise e => Some (w, Raise e)
          | Ret None => Some (w, Ret tt)
          | Ret (Some _) =>
              let '(self, fs, r) :=
                write_to_file (obj w) (files w) (hits page) in
              let w := {| obj := self; files := fs; backend := backend w;
                          fetched := fetched w |} in
              match r with
              | Raise e => Some (w, Raise e)
              | Ret _ => scroll_loop fuel w sid scrolled scroll_size
              end
          end
      end
  end.

Lemma bar_update_ok maxval value :
  0 <= value <= maxval -> bar_update maxval value = Ret tt.
Proof.
  intros [H0 H1]. unfold bar_update.
  apply Z.leb_le in H0, H1. rewrite H0, H1. reflexivity.
Qed.

Lemma bar_update_over maxval value :
  maxval < value ->
  bar_update maxval value = Raise (ValueError "Value out of range").
Proof.
  intros Hlt. unfold bar_update.
  apply Z.leb_gt in Hlt. rewrite Hlt, andb_false_r. reflexivity.
Qed.

(** The bar accepts a count exactly when it is between 0 and [maxval]. *)
Lemma bar_update_cases maxval value :
  (0 <= value <= maxval /\ bar_update maxval value = Ret tt) \/
  (~ 0 <= value <= maxval /\
   bar_update maxval value = Raise (ValueError "Value out of range")).
Proof.
  unfold bar_update.
  destruct (0 <=? value) eqn:H0; destruct (value <=? maxval) eqn:H1;
    cbn [andb]; rewrite ?Z.leb_le, ?Z.leb_gt in *; [left|right..];
    (split; [lia|reflexivity]).
Qed.

(** *** A backend that serves an unchanging collection

    [delivers b sid rest]: from the state [b], scrolling with the cursor
    [sid] hands out the documents [rest], in order, in non-empty pages. *)
Inductive delivers : B -> string -> list hit -> Prop :=
| delivers_done b sid : delivers b sid []
| delivers_page b sid p b' rest :
    es_scroll b sid = (p, b') ->
    hits p <> [] ->
    delivers b' (scroll_id p) rest ->
    delivers b sid (hits p ++ rest).

(** [serves b index docs]: the search on [index] reports [docs] as its
    hits, [length docs] as their total, and delivers them page after
    page, the first page being non-empty unless there is no document. *)
Definition serves (b : B) (index : string) (docs : list hit) : Prop :=
  total (fst (es_search b index)) = Z.of_nat (length docs) /\
  (docs <> [] -> hits (fst (es_search b index)) <> []) /\
  exists rest,
    docs = hits (fst (es_search b index)) ++ rest /\
    delivers (snd (es_search b index))
             (scroll_id (fst (es_search b index))) rest.

Lemma scroll_loop_delivers b sid rest :
  delivers b sid rest ->
  forall self fs log scrolled size name c,
    file_type self = Some "json" -> filename self = Some name ->
    fs !! name = Some c ->
    Forall has_source rest ->
    0 <= scrolled ->
    size = scrolled + Z.of_nat (length rest) ->
    exists fuel w' batches,
      scroll_loop fuel
        {| obj := self; files := fs; backend := b; fetched := log |}
        sid scrolled size = Some (w', Ret tt) /\
      obj w' = self /\
      files w' = <[name := c +:+ json_lines rest]> fs /\
      fetched w' = log ++ batches /\
      concat batches = rest.
Proof.
  induction 1 as [b sid|b sid p b' rest Hscroll Hne _ IH];
    intros self fs log scrolled size name c Htype Hname Hc Hsrc Hpos0 Hsize.
  - exists O, {| obj := self; files := fs; backend := b; fetched := log |}, [].
    cbn [scroll_loop length] in *.
    destruct (scrolled <? size) eqn:Hlt; [apply Z.ltb_lt in Hlt; lia|].
    cbn [obj files fetched json_lines concat].
    rewrite str_app_nil_r, app_nil_r, insert_id by exact Hc. auto.
  - apply Forall_app in Hsrc as [Hsrc1 Hsrc2].
    rewrite length_app in Hsize.
    destruct (IH self (<[name := c +:+ json_lines (hits p)]> fs)
                 (log ++ [hits p]) (scrolled + Z.of_nat (length (hits p)))
                 size name (c +:+ json_lines (hits p)) Htype Hname
                 (lookup_insert_eq _ _ _) Hsrc2 ltac:(lia) ltac:(lia))
      as (fuel & w' & batches & Hrun & Hobj & Hfiles & Hlog & Hcat).
    exists (S fuel), w', (hits p :: batches).
    cbn [scroll_loop].
    assert (Hpos : (0 < length (hits p))%nat)
      by (destruct (hits p); [congruence|cbn; lia]).
    destruct (scrolled <? size) eqn:Hlt; [|apply Z.ltb_ge in Hlt; lia].
    cbn [backend obj files fetched]. rewrite Hscroll.
    rewrite bar_update_ok by lia.
    rewrite (write_to_file_json self fs (hits p) name Htype Hname).
    rewrite Hc. cbn [default from_option id]. rewrite (json_status_ok _ Hsrc1).
    rewrite Hrun. split; [reflexivity|]. split; [exact Hobj|].
    split; [|split].
    + rewrite Hfiles, insert_insert_eq, json_lines_app, str_app_assoc
        by exact Hsrc1. reflexivity.
    + rewrite Hlog, <- app_assoc. reflexivity.
    + cbn [concat]. rewrite Hcat. reflexivity.
Qed.

Lemma delivers_cons b sid p b' docs rest :
  es_scroll b sid = (p, b') -> hits p <> [] -> docs = hits p ++ rest ->
  delivers b' (scroll_id p) rest -> delivers b sid docs.
Proof. intros Hscroll Hne -> Hrest. econstructor; eassumption. Qed.

(** X21.  When the backend serves the collection [docs] (its total is
    [length docs] and, nothing changing meanwhile, it hands the documents
    out in order in non-empty pages) and every hit carries a ['_source'],
    [dump_index] terminates normally; the batches it fetched are
    consecutive slices of [docs] that together make up [docs] (each
    document once), their sizes add up to the total, and for a non-empty
    collection the output file holds one line per document, in order. *)
Theorem dump_index_fetches_every_document (w : world) (index now : string)
  (docs : list hit) :
  serves (backend w) index docs ->
  Forall has_source docs ->
  exists fuel w' batches,
    dump_index fuel w index now = Some (w', Ret tt) /\
    fetched w' = fetched w ++ batches /\
    concat batches = docs /\
    Z.of_nat (list_sum (map length batches)) =
      total (fst (es_search (backend w) index)) /\
    (docs <> [] ->
     files w' !! output_name index now "json" = Some (json_lines docs)).
Proof.
  intros (Htotal & Hfirst & rest & Hdocs & Hrest) Hsrc.
  unfold dump_index.
  destruct (es_search (backend w) index) as [p0 b0] eqn:Hsearch.
  cbn [fst snd] in *.
  assert (Hlen : Z.of_nat (length (hits p0)) <= total p0).
  { rewrite Htotal, Hdocs, length_app. lia. }
  rewrite !bar_update_ok by lia.
  destruct (hits p0) as [|h0 hs0] eqn:Hp0.
  - (* an empty first page: by [serves] there is no document at all *)
    assert (Hnil : docs = []).
    { destruct docs as [|d docs]; [reflexivity|].
      exfalso. apply Hfirst; [discriminate|reflexivity]. }
    exists O, {| obj := obj w; files := files w; backend := b0;
                 fetched := fetched w ++ [[]] |}, [[]].
    cbn [prepare_file length Nat.eqb fetched concat app map list_sum].
    rewrite Htotal, Hnil. repeat split; congruence.
  - rewrite <- Hp0 in *.
    assert (Hne : hits p0 <> []) by (rewrite Hp0; discriminate).
    rewrite (prepare_file_nonempty _ _ _ _ _ Hne).
    set (name := output_name index now "json").
    set (self := set_file_type (set_filename (obj w) name) "json").
    cbn [obj files backend fetched].
    rewrite (write_to_file_json self _ (hits p0) name eq_refl eq_refl).
    rewrite lookup_insert_eq, insert_insert_eq. cbn [default from_option id].
    rewrite Hdocs in Hsrc. apply Forall_app in Hsrc as [Hsrc1 Hsrc2].
    rewrite (json_status_ok _ Hsrc1), str_app_nil_l.
    destruct (scroll_loop_delivers _ _ _ Hrest self
                (<[name := json_lines (hits p0)]> (files w))
                (fetched w ++ [hits p0]) (Z.of_nat (length (hits p0)))
                (total p0) name (json_lines (hits p0)) eq_refl eq_refl
                (lookup_insert_eq _ _ _) Hsrc2 ltac:(lia))
      as (fuel & w' & batches & Hrun & Hobj & Hfiles & Hlog & Hcat).
    { rewrite Htotal, Hdocs, length_app. lia. }
    exists fuel, w', (hits p0 :: batches).
    split; [exact Hrun|]. split; [rewrite Hlog, <- app_assoc; reflexivity|].
    split; [cbn [concat]; rewrite Hcat, Hdocs; reflexivity|].
    split.
    + rewrite <- length_concat. cbn [concat]. rewrite Hcat, <- Hdocs, Htotal.
      reflexivity.
    + intros _. rewrite Hfiles, lookup_insert_eq, Hdocs.
      rewrite json_lines_app by exact Hsrc1. reflexivity.
Qed.

(** Where the page that holds the first hit without ['_source'] ends. *)
Lemma split_at_bare (batch rest before after : list hit) (bare : hit) :
  batch ++ rest = before ++ bare :: after ->
  (exists seen, batch = before ++ bare :: seen /\ after = seen ++ rest) \/
  (exists before', before = batch ++ before' /\
                   rest = before' ++ bare :: after).
Proof.
  intros Heq. apply app_eq_app in Heq as [l [[-> Hl]|[-> Hl]]].
  - destruct l as [|x l].
    + right. exists []. rewrite !app_nil_r. split; [reflexivity|].
      symmetry. exact Hl.
    + left. injection Hl as -> ->. exists l. split; reflexivity.
  - right. exists l. split; [reflexivity|exact Hl].
Qed.

Lemma json_lines_stop before bare after :
  Forall has_source before -> dict_get "_source" bare = None ->
  json_lines (before ++ bare :: after) = json_lines before.
Proof.
  intros Hbefore Hbare. rewrite json_lines_app by exact Hbefore.
  cbn [json_lines]. rewrite Hbare. apply str_app_nil_r.
Qed.

Lemma json_status_stop before bare after :
  Forall has_source before -> dict_get "_source" bare = None ->
  json_status (before ++ bare :: after) = Raise (KeyError "_source").
Proof.
  intros Hbefore Hbare.
  induction Hbefore as [|h before [source Hh] _ IH];
    cbn [app json_status]; [rewrite Hbare; reflexivity|].
  rewrite Hh. exact IH.
Qed.

Lemma scroll_loop_breaks b sid rest :
  delivers b sid rest ->
  forall self fs log scrolled size name c before bare after,
    file_type self = Some "json" -> filename self = Some name ->
    fs !! name = Some c ->
    rest = before ++ bare :: after ->
    Forall has_source before -> dict_get "_source" bare = None ->
    0 <= scrolled ->
    size = scrolled + Z.of_nat (length rest) ->
    exists fuel w' batches seen unseen,
      scroll_loop fuel
        {| obj := self; files := fs; backend := b; fetched := log |}
        sid scrolled size = Some (w', Raise (KeyError "_source")) /\
      obj w' = self /\
      files w' = <[name := c +:+ json_lines before]> fs /\
      fetched w' = log ++ batches /\
      concat batches = before ++ bare :: seen /\
      after = seen ++ unseen.
Proof.
  induction 1 as [b sid|b sid p b' rest Hscroll Hne _ IH];
    intros self fs log scrolled size name c before bare after
           Htype Hname Hc Hrest Hsrc Hbare Hpos0 Hsize.
  - destruct before; discriminate.
  - rewrite length_app in Hsize.
    assert (Hpos : (0 < length (hits p))%nat)
      by (destruct (hits p); [congruence|cbn; lia]).
    destruct (split_at_bare _ _ _ _ _ Hrest)
      as [(seen & Hp & Hafter)|(before' & Hb & Hrest')].
    + exists 1%nat,
        {| obj := self; files := <[name := c +:+ json_lines before]> fs;
           backend := b'; fetched := log ++ [hits p] |},
        [hits p], seen, rest.
      cbn [scroll_loop].
      destruct (scrolled <? size) eqn:Hlt; [|apply Z.ltb_ge in Hlt; lia].
      cbn [backend obj files fetched]. rewrite Hscroll.
      rewrite bar_update_ok by lia.
      rewrite (write_to_file_json self fs (hits p) name Htype Hname).
      rewrite Hc. cbn [default from_option id].
      assert (Hst : json_status (hits p) = Raise (KeyError "_source"))
        by (rewrite Hp; apply json_status_stop; assumption).
      assert (Hln : json_lines (hits p) = json_lines before)
        by (rewrite Hp; apply json_lines_stop; assumption).
      rewrite Hst, Hln.
      split; [reflexivity|]. split; [reflexivity|]. split; [reflexivity|].
      split; [reflexivity|]. cbn [concat]. rewrite app_nil_r.
      split; [exact Hp|exact Hafter].
    + subst before. apply Forall_app in Hsrc as [Hsrc1 Hsrc2].
      destruct (IH self (<[name := c +:+ json_lines (hits p)]> fs)
                   (log ++ [hits p]) (scrolled + Z.of_nat (length (hits p)))
                   size name (c +:+ json_lines (hits p)) before' bare after
                   Htype Hname (lookup_insert_eq _ _ _) Hrest' Hsrc2 Hbare
                   ltac:(lia) ltac:(lia))
        as (fuel & w' & batches & seen & unseen
            & Hrun & Hobj & Hfiles & Hlog & Hcat & Hafter).
      exists (S fuel), w', (hits p :: batches), seen, unseen.
      cbn [scroll_loop].
      destruct (scrolled <? size) eqn:Hlt; [|apply Z.ltb_ge in Hlt; lia].
      cbn [backend obj files fetched]. rewrite Hscroll.
      rewrite bar_update_ok by lia.
      rewrite (write_to_file_json self fs (hits p) name Htype Hname).
      rewrite Hc. cbn [default from_option id].
      rewrite (json_status_ok _ Hsrc1), Hrun.
      split; [reflexivity|]. split; [exact Hobj|]. split; [|split; [|split]].
      * rewrite Hfiles, insert_insert_eq, json_lines_app, str_app_assoc
          by exact Hsrc1. reflexivity.
      * rewrite Hlog, <- app_assoc. reflexivity.
      * cbn [concat]. rewrite Hcat, app_assoc. reflexivity.
      * exact Hafter.
Qed.

(** C1, on the code as it is.  The backend serves the collection [docs]
    as the claim asks (its total is [length docs]; nothing changing
    meanwhile, it hands the documents out in order in non-empty pages),
    and one document, [bare], comes without ['_source'], those [before]
    it having one.  Then [dump_index] does not end normally: it stops
    with [KeyError] in the page that holds [bare].  The batches fetched
    are the documents up to the end of that page ([seen] after [bare]),
    the documents [unseen] of the later pages are never fetched, and the
    file holds the lines of [before] only: fewer lines than the total,
    whatever the collection. *)
Theorem dump_index_aborts_on_sourceless_hit (w : world) (index now : string)
  (docs before after : list hit) (bare : hit) :
  serves (backend w) index docs ->
  docs = before ++ bare :: after ->
  Forall has_source before -> dict_get "_source" bare = None ->
  exists fuel w' batches seen unseen,
    dump_index fuel w index now = Some (w', Raise (KeyError "_source")) /\
    fetched w' = fetched w ++ batches /\
    concat batches = before ++ bare :: seen /\
    after = seen ++ unseen /\
    files w' !! output_name index now "json" = Some (json_lines before) /\
    Z.of_nat (length before) < total (fst (es_search (backend w) index)).
Proof.
  intros (Htotal & Hfirst & rest & Hdocs & Hrest) Hsplit Hsrc Hbare.
  unfold dump_index.
  destruct (es_search (backend w) index) as [p0 b0] eqn:Hsearch.
  cbn [fst snd] in *.
  assert (Hlen : Z.of_nat (length (hits p0)) <= total p0).
  { rewrite Htotal, Hdocs, length_app. lia. }
  assert (Hless : Z.of_nat (length before) < total p0).
  { rewrite Htotal, Hsplit, length_app. cbn [length]. lia. }
  assert (Hne : hits p0 <> []).
  { apply Hfirst. rewrite Hsplit. destruct before; discriminate. }
  rewrite !bar_update_ok by lia.
  rewrite (prepare_file_nonempty _ _ _ _ _ Hne).
  set (name := output_name index now "json").
  set (self := set_file_type (set_filename (obj w) name) "json").
  cbn [obj files backend fetched].
  rewrite (write_to_file_json self _ (hits p0) name eq_refl eq_refl).
  rewrite lookup_insert_eq, insert_insert_eq. cbn [default from_option id].
  rewrite str_app_nil_l.
  rewrite Hsplit in Hdocs. symmetry in Hdocs.
  destruct (split_at_bare _ _ _ _ _ Hdocs)
    as [(seen & Hp & Hafter)|(before' & Hb & Hrest')].
  - exists O,
      {| obj := self; files := <[name := json_lines before]> (files w);
         backend := b0; fetched := fetched w ++ [hits p0] |},
      [hits p0], seen, rest.
    assert (Hst : json_status (hits p0) = Raise (KeyError "_source"))
      by (rewrite Hp; apply json_status_stop; assumption).
    assert (Hln : json_lines (hits p0) = json_lines before)
      by (rewrite Hp; apply json_lines_stop; assumption).
    rewrite Hst, Hln.
    split; [reflexivity|]. split; [reflexivity|].
    cbn [concat files]. rewrite app_nil_r.
    split; [exact Hp|]. split; [exact Hafter|].
    split; [apply lookup_insert_eq|exact Hless].
  - subst before. apply Forall_app in Hsrc as [Hsrc1 Hsrc2].
    rewrite (json_status_ok _ Hsrc1).
    destruct (scroll_loop_breaks _ _ _ Hrest self
                (<[name := json_lines (hits p0)]> (files w))
                (fetched w ++ [hits p0]) (Z.of_nat (length (hits p0)))
                (total p0) name (json_lines (hits p0)) before' bare after
                eq_refl eq_refl (lookup_insert_eq _ _ _) Hrest' Hsrc2 Hbare
                ltac:(lia))
      as (fuel & w' & batches & seen & unseen
          & Hrun & Hobj & Hfiles & Hlog & Hcat & Hafter).
    { rewrite Htotal, Hsplit, Hrest', !length_app. lia. }
    exists fuel, w', (hits p0 :: batches), seen, unseen.
    split; [exact Hrun|]. split; [rewrite Hlog, <- app_assoc; reflexivity|].
    split; [cbn [concat]; rewrite Hcat, app_assoc; reflexivity|].
    split; [exact Hafter|].
    split; [|exact Hless].
    rewrite Hfiles, lookup_insert_eq.
    rewrite json_lines_app by exact Hsrc1. reflexivity.
Qed.

(** C6.  When the first page has no hit, [prepare_file] declines
    (whatever the type asked for) without touching the object or the file
    system, and [dump_index] ends at once: the files are those from
    before the call, none was created and none was written, and no
    further page was requested.  It returns normally for a total of zero
    (or more); a negative total, which the progress bar refuses, makes it
    raise [ValueError] instead, before [prepare_file] is reached. *)
Theorem empty_first_page_creates_no_file (fuel : nat) (w : world)
  (index now : string) :
  hits (fst (es_search (backend w) index)) = [] ->
  (forall type,
     prepare_file (obj w) (files w) index
                  (hits (fst (es_search (backend w) index))) type now =
     (obj w, files w, Ret None)) /\
  dump_index fuel w index now =
  Some ({| obj := obj w; files := files w;
           backend := snd (es_search (backend w) index);
           fetched := fetched w ++ [[]] |},
        if 0 <=? total (fst (es_search (backend w) index)) then Ret tt
        else Raise (ValueError "Value out of range")).
Proof.
  intros Hempty. split.
  - intros type. rewrite Hempty. reflexivity.
  - unfold dump_index.
    destruct (es_search (backend w) index) as [p0 b0]. cbn [fst snd] in *.
    rewrite Hempty. cbn [length]. change (Z.of_nat 0) with 0.
    unfold bar_update. change (0 <=? 0) with true. cbn [andb].
    destruct (0 <=? total p0); reflexivity.
Qed.

(** *** Two runs over the same pages *)

(** The page that the [n]-th next call of [es.scroll] returns. *)
Fixpoint nth_scroll (n : nat) (b : B) (sid : string) : page :=
  match n with
  | O => fst (es_scroll b sid)
  | S n' =>
      nth_scroll n' (snd (es_scroll b sid)) (scroll_id (fst (es_scroll b sid)))
  end.

(** Two cursors, possibly in different states of the backend and with
    different tokens, that return the same hits page after page. *)
Definition same_hits (b1 : B) (sid1 : string) (b2 : B) (sid2 : string) : Prop :=
  forall n, hits (nth_scroll n b1 sid1) = hits (nth_scroll n b2 sid2).

(** Two runs end alike: both run out of fuel, or both end with the same
    status and [name1] in the first holds what [name2] holds in the
    second. *)
Definition same_status_and_content (name1 name2 : string)
  (r1 r2 : option (world * result unit)) : Prop :=
  match r1, r2 with
  | Some (w1, s1), Some (w2, s2) =>
      s1 = s2 /\ files w1 !! name1 = files w2 !! name2
  | None, None => True
  | _, _ => False
  end.

Lemma scroll_loop_same fuel :
  forall w1 w2 sid1 sid2 scrolled size name1 name2,
    file_type (obj w1) = Some "json" -> filename (obj w1) = Some name1 ->
    file_type (obj w2) = Some "json" -> filename (obj w2) = Some name2 ->
    files w1 !! name1 = files w2 !! name2 ->
    same_hits (backend w1) sid1 (backend w2) sid2 ->
    same_status_and_content name1 name2
      (scroll_loop fuel w1 sid1 scrolled size)
      (scroll_loop fuel w2 sid2 scrolled size).
Proof.
  induction fuel as [|fuel IH];
    intros w1 w2 sid1 sid2 scrolled size name1 name2
           Ht1 Hn1 Ht2 Hn2 Hfiles Hsame;
    cbn [scroll_loop]; destruct (scrolled <? size);
    try (cbn; auto; fail).
  pose proof (Hsame O) as Hpage. cbn [nth_scroll] in Hpage.
  assert (Hnext : same_hits (snd (es_scroll (backend w1) sid1))
                            (scroll_id (fst (es_scroll (backend w1) sid1)))
                            (snd (es_scroll (backend w2) sid2))
                            (scroll_id (fst (es_scroll (backend w2) sid2))))
    by (intros n; apply (Hsame (S n))).
  destruct (es_scroll (backend w1) sid1) as [p1 b1].
  destruct (es_scroll (backend w2) sid2) as [p2 b2].
  cbn [fst snd] in *.
  rewrite <- Hpage.
  destruct (bar_update size (scrolled + Z.of_nat (length (hits p1))))
    as [[]|e0]; [|cbn [same_status_and_content files]; auto].
  rewrite (write_to_file_json _ _ _ name1 Ht1 Hn1).
  rewrite (write_to_file_json _ _ _ name2 Ht2 Hn2).
  rewrite <- Hfiles.
  destruct (json_status (hits p1)) as [[]|e].
  - apply IH; cbn [obj files backend]; auto.
    rewrite !lookup_insert_eq. reflexivity.
  - cbn [same_status_and_content files]. rewrite !lookup_insert_eq. auto.
Qed.

(** C8.  Take two runs of [dump_index] on the same index, at different
    times [now1] and [now2], from any two states of the object, of the
    file system and of the backend, with any cursor tokens.  If the two
    runs receive the same total and the same hits page after page, then
    they end with the same status, and the file of the first run holds
    exactly what the file of the second run holds: the same lines in the
    same order.  (This wherever a run gets to its file: not when the
    first page is empty, nor when it holds more hits than the total, in
    which case the progress bar stops both runs before [prepare_file].) *)
Theorem export_is_deterministic (w1 w2 : world) (index now1 now2 : string) :
  hits (fst (es_search (backend w1) index)) =
    hits (fst (es_search (backend w2) index)) ->
  total (fst (es_search (backend w1) index)) =
    total (fst (es_search (backend w2) index)) ->
  same_hits (snd (es_search (backend w1) index))
            (scroll_id (fst (es_search (backend w1) index)))
            (snd (es_search (backend w2) index))
            (scroll_id (fst (es_search (backend w2) index))) ->
  forall fuel,
    match dump_index fuel w1 index now1, dump_index fuel w2 index now2 with
    | Some (w1', s1), Some (w2', s2) =>
        s1 = s2 /\
        (hits (fst (es_search (backend w1) index)) <> [] ->
         Z.of_nat (length (hits (fst (es_search (backend w1) index))))
           <= total (fst (es_search (backend w1) index)) ->
         files w1' !! output_name index now1 "json" =
         files w2' !! output_name index now2 "json")
    | None, None => True
    | _, _ => False
    end.
Proof.
  intros Hhits Htotal Hsame fuel. unfold dump_index.
  destruct (es_search (backend w1) index) as [p1 b1].
  destruct (es_search (backend w2) index) as [p2 b2].
  cbn [fst snd] in *. rewrite <- Hhits, <- Htotal.
  destruct (bar_update_cases (total p1) 0) as [[H0 ->]|[H0 ->]];
    [|split; [reflexivity|intros; lia]].
  destruct (bar_update_cases (total p1) (Z.of_nat (length (hits p1))))
    as [[H1 ->]|[H1 ->]]; [|split; [reflexivity|intros; lia]].
  destruct (hits p1) as [|h hs] eqn:Hp1.
  - cbn [prepare_file length Nat.eqb]. split; [reflexivity|congruence].
  - rewrite <- Hp1.
    assert (Hne : hits p1 <> []) by (rewrite Hp1; discriminate).
    cbn [obj files backend fetched].
    rewrite !(prepare_file_nonempty _ _ _ _ _ Hne).
    cbn [obj files backend fetched]. rewrite !write_first_batch.
    destruct (json_status (hits p1)) as [[]|e].
    + match goal with
      | |- match ?r1 with _ => _ end =>
          match goal with
          | |- context [match ?r2 with Some _ => False | None => True end] =>
              assert (Hloop : same_status_and_content
                                (output_name index now1 "json")
                                (output_name index now2 "json") r1 r2)
          end
      end.
      { apply scroll_loop_same; cbn [obj files backend]; auto.
        rewrite !lookup_insert_eq. reflexivity. }
      unfold same_status_and_content in Hloop.
      repeat match goal with
             | H : context [match ?r with _ => _ end] |- _ => destruct r
             | p : (_ * _)%type |- _ => destruct p
             end; tauto.
    + cbn [files]. rewrite !lookup_insert_eq. auto.
Qed.

(** *** [dump_index] against any backend *)





(** X16.  The total is read once, from the first page, and the hits are
    counted against it.  When the first page holds exactly that many
    hits, [dump_index] writes it and stops without a single call of
    [es.scroll], with any fuel, even though the backend may have more to
    deliver.  When it holds more, the progress bar refuses the count:
    [ValueError] is raised before [prepare_file], no file is created and
    nothing is written. *)
Theorem dump_index_stops_at_total (fuel : nat) (w : world)
  (index now : string) :
  (hits (fst (es_search (backend w) index)) <> [] ->
   Z.of_nat (length (hits (fst (es_search (backend w) index))))
     = total (fst (es_search (backend w) index)) ->
   dump_index fuel w index now =
   Some ({| obj := set_file_type
                     (set_filename (obj w) (output_name index now "json"))
                     "json";
            files := <[output_name index now "json" :=
                         json_lines (hits (fst (es_search (backend w) index)))]>
                       (files w);
            backend := snd (es_search (backend w) index);
            fetched :=
              fetched w ++ [hits (fst (es_search (backend w) index))] |},
         json_status (hits (fst (es_search (backend w) index))))) /\
  (total (fst (es_search (backend w) index))
     < Z.of_nat (length (hits (fst (es_search (backend w) index)))) ->
   dump_index fuel w index now =
   Some ({| obj := obj w;
            files := files w;
            backend := snd (es_search (backend w) index);
            fetched :=
              fetched w ++ [hits (fst (es_search (backend w) index))] |},
         Raise (ValueError "Value out of range"))).
Proof.
  unfold dump_index.
  destruct (es_search (backend w) index) as [p0 b0]. cbn [fst snd] in *.
  split.
  - intros Hne Htotal. rewrite !bar_update_ok by lia.
    cbn [obj files backend fetched].
    rewrite (prepare_file_nonempty _ _ _ _ _ Hne).
    cbn [obj files backend fetched]. rewrite write_first_batch.
    destruct (json_status (hits p0)) as [[]|e]; [|reflexivity].
    destruct fuel; cbn [scroll_loop];
      (destruct (_ <? _) eqn:Hlt; [apply Z.ltb_lt in Hlt; lia|reflexivity]).
  - intros Hover.
    destruct (bar_update_cases (total p0) 0) as [[H0 ->]|[H0 ->]];
      [|reflexivity].
    rewrite bar_update_over by exact Hover. reflexivity.
Qed.

Lemma scroll_loop_starves fuel :
  (forall b sid, hits (fst (es_scroll b sid)) = []) ->
  forall w sid scrolled size name,
    file_type (obj w) = Some "json" -> filename (obj w) = Some name ->
    0 <= scrolled < size ->
    scroll_loop fuel w sid scrolled size = None.
Proof.
  intros Hdry. induction fuel as [|fuel IH];
    intros w sid scrolled size name Htype Hname Hlt; cbn [scroll_loop];
    (destruct (scrolled <? size) eqn:Hcond; [|apply Z.ltb_ge in Hcond; lia]);
    [reflexivity|].
  specialize (Hdry (backend w) sid).
  destruct (es_scroll (backend w) sid) as [p b]. cbn [fst] in Hdry.
  rewrite Hdry. cbn [length]. rewrite bar_update_ok by lia.
  rewrite (write_to_file_json _ _ _ name Htype Hname).
  cbn [json_status]. apply IH with (name := name); cbn [obj]; auto.
  lia.
Qed.

(** X17.  The loop counts hits and has no other way out: if the first page has
    fewer hits than the total it announces and the backend has nothing
    more to deliver (its scroll pages are empty, as after deletions),
    [dump_index] scrolls for ever: no amount of fuel lets it end. *)
Theorem dump_index_waits_for_missing_hits (w : world) (index now : string) :
  (forall b sid, hits (fst (es_scroll b sid)) = []) ->
  hits (fst (es_search (backend w) index)) <> [] ->
  Forall has_source (hits (fst (es_search (backend w) index))) ->
  Z.of_nat (length (hits (fst (es_search (backend w) index))))
    < total (fst (es_search (backend w) index)) ->
  forall fuel, dump_index fuel w index now = None.
Proof.
  intros Hdry Hne Hsrc Hlt fuel. unfold dump_index.
  destruct (es_search (backend w) index) as [p0 b0]. cbn [fst] in *.
  rewrite !bar_update_ok by lia. cbn [obj files backend fetched].
  rewrite (prepare_file_nonempty _ _ _ _ _ Hne).
  cbn [obj files backend fetched]. rewrite write_first_batch.
  rewrite (json_status_ok _ Hsrc).
  apply (scroll_loop_starves fuel Hdry) with (name := output_name index now "json");
    auto.
  lia.
Qed.

End Backend.

(** A backend for examples: it holds the documents not yet delivered,
    hands them out [size] at a time and numbers its cursor tokens. *)
Definition chunk_page (size : nat) (count : Z) (b : list hit * Z)
  : page * (list hit * Z) :=
  ({| scroll_id := "c" +:+ str_int (snd b);
      hits := take size (fst b);
      total := count |},
   (drop size (fst b), snd b + 1)).

Definition chunk_call (size : nat) (count : Z) (b : list hit * Z)
  (_ : string) : page * (list hit * Z) :=
  chunk_page size count b.

Lemma chunk_nth_scroll size count n :
  forall rest c sid,
    hits (nth_scroll _ (chunk_call size count) n (rest, c) sid) =
    take size (drop (n * size) rest).
Proof.
  induction n as [|n IH]; intros rest c sid; [reflexivity|].
  cbn [nth_scroll chunk_call chunk_page fst snd]. rewrite IH, drop_drop.
  reflexivity.
Qed.

End Es2csv.

Arguments obj {_ B} w.
Arguments files {_ B} w.
Arguments backend {_ B} w.
Arguments fetched {_ B} w.
Arguments Build_world {_ B} obj files backend fetched.
Arguments scroll_loop {_ B} es_scroll fuel w sid scrolled scroll_size.
Arguments dump_index {_ B} es_search es_scroll fuel w index now.
Arguments delivers {_ B} es_scroll b sid docs.
Arguments serves {_ B} es_search es_scroll b index docs.
Arguments same_hits {_ B} es_scroll b1 sid1 b2 sid2.

(** *** Concrete runs *)

Section Examples.
#[local] Existing Instance literal_float.

Definition doc (n : Z) : hit :=
  [("_id", JScalar (PStr (str_int n)));
   ("_source", JDict [("n", JScalar (PInt n))])].

Definition five_docs : list hit := map doc [1; 2; 3; 4; 5].

(** A hit as Elasticsearch returns it when the source is not stored. *)
Definition bare_hit : hit := [("_id", JScalar (PStr "7"))].

Definition fresh (docs : list hit) (counter : Z) : world (list hit * Z) :=
  Build_world init ∅ (docs, counter) [].

Example dump_five_docs :
  option_map (fun r => (map_to_list (files (fst r)), fetched (fst r), snd r))
    (dump_index (chunk_call 2 5) (chunk_call 2 5) 2 (fresh five_docs 0)
                "usdbch.kraken.x" "2026-01-01_00-00-00") =
  Some ([("usdbch_kraken_x_2026-01-01_00-00-00.json",
          json_lines five_docs)],
        [map doc [1; 2]; map doc [3; 4]; map doc [5]],
        Ret tt).
Proof. vm_compute. reflexivity. Qed.

(** The [json] branch has no guard on ['_source']: a hit without it
    stops the export with [KeyError]. *)
Example dump_bare_hit :
  option_map snd
    (dump_index (chunk_call 2 1) (chunk_call 2 1) 2 (fresh [bare_hit] 0)
                "idx" "2026-01-01_00-00-00") =
  Some (Raise (KeyError "_source")).
Proof. vm_compute. reflexivity. Qed.

(** C10, on the code as it is: asked for a [csv] file, [prepare_file]
    stops on [get_headers] with the file still empty, so no header line
    is there for a row to join; and since [self.file_type] was never
    assigned, the [write_to_file] that would follow fails before writing
    any row. *)
Theorem csv_file_gets_no_header_line :
  prepare_file init ∅ "idx" [doc 1] "csv" "2026-01-01_00-00-00" =
    (set_filename init "idx_2026-01-01_00-00-00.csv",
     {["idx_2026-01-01_00-00-00.csv" := EmptyString]},
     Raise (NameError "get_headers")) /\
  write_to_file (set_filename init "idx_2026-01-01_00-00-00.csv")
                {["idx_2026-01-01_00-00-00.csv" := EmptyString]} [doc 1] =
    (set_filename init "idx_2026-01-01_00-00-00.csv",
     {["idx_2026-01-01_00-00-00.csv" := EmptyString]},
     Raise (AttributeError "file_type")).
Proof. split; reflexivity. Qed.

(** With [self.file_type] set by hand to ['csv'], the rows of a batch. *)
Definition csv_object : Es2csv :=
  {| filename := Some "idx.csv"; file_type := Some "csv"; csv_headers := None |}.

Example csv_rows_of_batch :
  csv_rows [doc 1; bare_hit; [("_source", Flatten.ex_doc)]] [] =
  [dumps_row [("n", PInt 1)] +:+ nl;
   dumps_row [("a,b", PInt 1); ("a,c", PStr "2,3")] +:+ nl].
Proof. vm_compute. reflexivity. Qed.

(** A collection whose second document has no ['_source'], served two
    documents at a time. *)
Definition holed_docs : list hit := [doc 1; bare_hit; doc 3; doc 4; doc 5].

Example dump_holed_docs :
  option_map (fun r => (map_to_list (files (fst r)), fetched (fst r), snd r))
    (dump_index (chunk_call 2 5) (chunk_call 2 5) 2 (fresh holed_docs 0)
                "idx" "2026-01-01_00-00-00") =
  Some ([("idx_2026-01-01_00-00-00.json", json_lines [doc 1])],
        [[doc 1; bare_hit]],
        Raise (KeyError "_source")).
Proof. vm_compute. reflexivity. Qed.

Lemma dump_index_aborts_on_sourceless_hit_witness :
  serves (chunk_call 2 5) (chunk_call 2 5) (holed_docs, 0) "idx" holed_docs /\
  Forall has_source [doc 1] /\
  dict_get "_source" bare_hit = None /\
  exists fuel w' batches seen unseen,
    dump_index (chunk_call 2 5) (chunk_call 2 5) fuel (fresh holed_docs 0)
               "idx" "2026-01-01_00-00-00"
    = Some (w', Raise (KeyError "_source")) /\
    fetched w' = [] ++ batches /\
    concat batches = [doc 1] ++ bare_hit :: seen /\
    [doc 3; doc 4; doc 5] = seen ++ unseen /\
    files w' !! output_name "idx" "2026-01-01_00-00-00" "json"
    = Some (json_lines [doc 1]) /\
    1 < 5.
Proof.
  assert (Hserves : serves (chunk_call 2 5) (chunk_call 2 5) (holed_docs, 0)
                           "idx" holed_docs).
  { split; [reflexivity|]. split; [discriminate|].
    exists (map doc [3; 4; 5]). split; [reflexivity|].
    eapply (delivers_cons _ _ _ _ _ _ _ (map doc [5]));
      [reflexivity|discriminate|reflexivity|].
    eapply (delivers_cons _ _ _ _ _ _ _ []);
      [reflexivity|discriminate|reflexivity|].
    apply delivers_done. }
  assert (Hsrc : Forall has_source [doc 1])
    by (repeat constructor; eexists; reflexivity).
  split; [exact Hserves|]. split; [exact Hsrc|]. split; [reflexivity|].
  exact (dump_index_aborts_on_sourceless_hit _ (chunk_call 2 5)
           (chunk_call 2 5) (fresh holed_docs 0) "idx" "2026-01-01_00-00-00"
           holed_docs [doc 1] [doc 3; doc 4; doc 5] bare_hit
           Hserves eq_refl Hsrc eq_refl).
Defined.

Lemma dump_index_fetches_every_document_witness :
  serves (chunk_call 2 5) (chunk_call 2 5) (five_docs, 0) "usdbch.kraken.x"
         five_docs /\
  Forall has_source five_docs /\
  exists fuel w' batches,
    dump_index (chunk_call 2 5) (chunk_call 2 5) fuel (fresh five_docs 0)
               "usdbch.kraken.x" "2026-01-01_00-00-00" = Some (w', Ret tt) /\
    fetched w' = [] ++ batches /\
    concat batches = five_docs /\
    Z.of_nat (list_sum (map length batches)) = 5 /\
    (five_docs <> [] ->
     files w' !! output_name "usdbch.kraken.x" "2026-01-01_00-00-00" "json"
     = Some (json_lines five_docs)).
Proof.
  assert (Hserves : serves (chunk_call 2 5) (chunk_call 2 5) (five_docs, 0)
                           "usdbch.kraken.x" five_docs).
  { split; [reflexivity|]. split; [discriminate|].
    exists (map doc [3; 4; 5]). split; [reflexivity|].
    eapply (delivers_cons _ _ _ _ _ _ _ (map doc [5]));
      [reflexivity|discriminate|reflexivity|].
    eapply (delivers_cons _ _ _ _ _ _ _ []);
      [reflexivity|discriminate|reflexivity|].
    apply delivers_done. }
  assert (Hsrc : Forall has_source five_docs)
    by (repeat constructor; eexists; reflexivity).
  split; [exact Hserves|]. split; [exact Hsrc|].
  exact (dump_index_fetches_every_document _ (chunk_call 2 5) (chunk_call 2 5)
           (fresh five_docs 0) "usdbch.kraken.x" "2026-01-01_00-00-00"
           five_docs Hserves Hsrc).
Defined.

Lemma empty_first_page_creates_no_file_witness :
  hits (fst (chunk_call 2 0 ([], 0) "idx")) = [] /\
  dump_index (chunk_call 2 0) (chunk_call 2 0) 3 (fresh [] 0)
             "idx" "2026-01-01_00-00-00" =
  Some (Build_world init ∅ ([], 1) [[]], Ret tt).
Proof.
  split; [reflexivity|].
  exact (proj2 (empty_first_page_creates_no_file _ (chunk_call 2 0)
                  (chunk_call 2 0) 3 (fresh [] 0) "idx" "2026-01-01_00-00-00"
                  eq_refl)).
Defined.

(** A second run, later, from an object that has exported before, with
    other files around and other cursor tokens. *)
Definition later : world (list hit * Z) :=
  Build_world
    {| filename := Some "old.json"; file_type := Some "json";
       csv_headers := None |}
    {["old.json" := "{}"]} (five_docs, 100) [[bare_hit]].

Lemma export_is_deterministic_witness :
  same_hits (chunk_call 2 5) (drop 2 five_docs, 1) "c0"
            (drop 2 five_docs, 101) "c100" /\
  match
    dump_index (chunk_call 2 5) (chunk_call 2 5) 4 (fresh five_docs 0)
               "usdbch.kraken.x" "2026-01-01_00-00-00",
    dump_index (chunk_call 2 5) (chunk_call 2 5) 4 later
               "usdbch.kraken.x" "2026-11-04_12-30-00"
  with
  | Some (w1', s1), Some (w2', s2) =>
      s1 = s2 /\
      (take 2 five_docs <> [] ->
       Z.of_nat (length (take 2 five_docs)) <= 5 ->
       files w1' !! "usdbch_kraken_x_2026-01-01_00-00-00.json" =
       files w2' !! "usdbch_kraken_x_2026-11-04_12-30-00.json")
  | None, None => True
  | _, _ => False
  end.
Proof.
  assert (Hsame : same_hits (chunk_call 2 5) (drop 2 five_docs, 1) "c0"
                            (drop 2 five_docs, 101) "c100").
  { intros n. rewrite !chunk_nth_scroll. reflexivity. }
  split; [exact Hsame|].
  exact (export_is_deterministic _ (chunk_call 2 5) (chunk_call 2 5)
           (fresh five_docs 0) later "usdbch.kraken.x"
           "2026-01-01_00-00-00" "2026-11-04_12-30-00"
           eq_refl eq_refl Hsame 4%nat).
Defined.

Lemma csv_mode_skips_sourceless_hits_witness :
  file_type csv_object = Some "csv" /\
  filename csv_object = Some "idx.csv" /\
  sourceless bare_hit /\
  write_to_file csv_object {["idx.csv" := "h"]} ([doc 1] ++ bare_hit :: [doc 2])
  = write_to_file csv_object {["idx.csv" := "h"]} ([doc 1] ++ [doc 2]) /\
  (length (csv_rows ([doc 1] ++ bare_hit :: [doc 2]) []) < 3)%nat.
Proof.
  assert (Hbare : sourceless bare_hit) by (left; reflexivity).
  split; [reflexivity|]. split; [reflexivity|]. split; [exact Hbare|].
  pose proof (csv_mode_skips_sourceless_hits csv_object {["idx.csv" := "h"]}
                [doc 1] [doc 2] bare_hit "idx.csv" eq_refl eq_refl Hbare)
    as (Heq & _ & Hlt).
  split; [exact Heq|exact Hlt].
Defined.

Lemma prepare_file_csv_raises_before_header_witness :
  [doc 1] <> [] /\
  prepare_file init ∅ "idx" [doc 1] "csv" "2026-01-01_00-00-00" =
  (set_filename init (output_name "idx" "2026-01-01_00-00-00" "csv"),
   <[output_name "idx" "2026-01-01_00-00-00" "csv" := EmptyString]> ∅,
   Raise (NameError "get_headers")).
Proof.
  assert (Hne : [doc 1] <> []) by discriminate.
  split; [exact Hne|].
  exact (proj2 (prepare_file_csv_raises_before_header init ∅ "idx"
                  "2026-01-01_00-00-00" [doc 1] Hne)).
Defined.

Definition json_object : Es2csv :=
  {| filename := Some "idx.json"; file_type := Some "json";
     csv_headers := None |}.

(** A scroll that has nothing left. *)
Definition dry_scroll (b : list hit * Z) (sid : string)
  : page * (list hit * Z) :=
  ({| scroll_id := sid; hits := []; total := 0 |}, b).

Lemma other_type_writes_nothing_witness :
  [doc 1] <> [] /\ "txt" <> "json" /\ "txt" <> "csv" /\
  write_to_file
    (set_file_type (set_filename init "idx_2026-01-01_00-00-00.txt") "txt")
    {["idx_2026-01-01_00-00-00.txt" := EmptyString]} five_docs =
  (set_file_type (set_filename init "idx_2026-01-01_00-00-00.txt") "txt",
   {["idx_2026-01-01_00-00-00.txt" := EmptyString]}, Ret tt).
Proof.
  assert (H1 : [doc 1] <> []) by discriminate.
  assert (H2 : "txt" <> "json") by discriminate.
  assert (H3 : "txt" <> "csv") by discriminate.
  split; [exact H1|]. split; [exact H2|]. split; [exact H3|].
  exact (proj2 (other_type_writes_nothing init ∅ "idx" "2026-01-01_00-00-00"
                  "txt" [doc 1] five_docs H1 H2 H3)).
Defined.

Lemma write_to_file_appends_witness :
  "old.json" <> "idx.json" /\
  snd (fst (write_to_file json_object
              {["idx.json" := "{}"; "old.json" := "x"]} five_docs))
    !! "old.json" = Some "x" /\
  exists suffix,
    snd (fst (write_to_file json_object
                {["idx.json" := "{}"; "old.json" := "x"]} five_docs))
      !! "idx.json" = Some ("{}" +:+ suffix).
Proof.
  assert (Hne : "old.json" <> "idx.json") by discriminate.
  split; [exact Hne|].
  destruct (write_to_file_appends json_object
              {["idx.json" := "{}"; "old.json" := "x"]} five_docs)
    as (_ & _ & Hother & Hprefix).
  split.
  - rewrite (Hother "old.json" Hne). reflexivity.
  - exact (Hprefix "{}" eq_refl).
Defined.

Lemma write_to_file_json_stops_at_bare_hit_witness :
  Forall has_source [doc 1; doc 2] /\
  dict_get "_source" bare_hit = None /\
  write_to_file json_object ∅ ([doc 1; doc 2] ++ bare_hit :: [doc 3]) =
  (json_object,
   <["idx.json" := EmptyString +:+ json_lines [doc 1; doc 2]]> ∅,
   Raise (KeyError "_source")).
Proof.
  assert (Hsrc : Forall has_source [doc 1; doc 2])
    by (repeat constructor; eexists; reflexivity).
  split; [exact Hsrc|]. split; [reflexivity|].
  exact (write_to_file_json_stops_at_bare_hit json_object ∅ "idx.json"
           [doc 1; doc 2] [doc 3] bare_hit eq_refl eq_refl Hsrc eq_refl).
Defined.

Lemma write_to_file_json_batches_witness :
  Forall has_source [doc 1; doc 2] /\
  write_to_file json_object
    (snd (fst (write_to_file json_object ∅ [doc 1; doc 2]))) [doc 3] =
  write_to_file json_object ∅ ([doc 1; doc 2] ++ [doc 3]).
Proof.
  assert (Hsrc : Forall has_source [doc 1; doc 2])
    by (repeat constructor; eexists; reflexivity).
  split; [exact Hsrc|].
  exact (write_to_file_json_batches json_object ∅ "idx.json"
           [doc 1; doc 2] [doc 3] eq_refl eq_refl Hsrc).
Defined.

Definition mixed_batch : list hit :=
  [doc 1; bare_hit; [("_source", JDict [])]; [("_source", Flatten.ex_doc)]].

Lemma mixed_batch_sized : Forall sized mixed_batch.
Proof.
  repeat constructor; intros source Hsrc; vm_compute in Hsrc;
    try discriminate; injection Hsrc as <-; eexists; reflexivity.
Qed.

Lemma write_to_file_csv_rows_witness :
  Forall sized mixed_batch /\
  snd (fst (write_to_file csv_object {["idx.csv" := "h"]} mixed_batch)) =
    <["idx.csv" := "h" +:+ text_of (rows_of mixed_batch)]>
      {["idx.csv" := "h"]} /\
  rows_of mixed_batch =
    [dumps_row [("n", PInt 1)] +:+ nl;
     dumps_row [("a,b", PInt 1); ("a,c", PStr "2,3")] +:+ nl].
Proof.
  split; [exact mixed_batch_sized|]. split; [|reflexivity].
  exact (proj1 (write_to_file_csv_rows csv_object {["idx.csv" := "h"]}
                  "idx.csv" mixed_batch eq_refl eq_refl mixed_batch_sized)).
Defined.

Lemma write_to_file_csv_headers_witness :
  Forall sized mixed_batch /\
  exists headers,
    csv_headers (fst (fst (write_to_file
                             (set_csv_headers csv_object ["stale"])
                             {["idx.csv" := "h"]} mixed_batch)))
      = Some headers /\
    NoDup headers.
Proof.
  split; [exact mixed_batch_sized|].
  destruct (write_to_file_csv_headers (set_csv_headers csv_object ["stale"])
              {["idx.csv" := "h"]} "idx.csv" mixed_batch eq_refl eq_refl
              mixed_batch_sized) as (headers & Heq & Hnd & _).
  exists headers. split; [exact Heq|exact Hnd].
Defined.


Lemma dump_index_stops_at_total_witness :
  hits (fst (chunk_call 3 3 (five_docs, 0) "idx")) <> [] /\
  Z.of_nat (length (hits (fst (chunk_call 3 3 (five_docs, 0) "idx")))) = 3 /\
  option_map (fun r => (fetched (fst r), snd r))
    (dump_index (chunk_call 3 3) (chunk_call 3 3) 7 (fresh five_docs 0)
                "idx" "2026-01-01_00-00-00") =
    Some ([map doc [1; 2; 3]], Ret tt) /\
  2 < Z.of_nat (length (hits (fst (chunk_call 3 2 (five_docs, 0) "idx")))) /\
  dump_index (chunk_call 3 2) (chunk_call 3 2) 7 (fresh five_docs 0)
             "idx" "2026-01-01_00-00-00" =
    Some (Build_world init ∅ (drop 3 five_docs, 1) [map doc [1; 2; 3]],
          Raise (ValueError "Value out of range")).
Proof.
  assert (Hne : hits (fst (chunk_call 3 3 (five_docs, 0) "idx")) <> [])
    by discriminate.
  assert (Heq : Z.of_nat
                  (length (hits (fst (chunk_call 3 3 (five_docs, 0) "idx"))))
                = 3) by reflexivity.
  assert (Hover : 2 < Z.of_nat
                        (length (hits (fst (chunk_call 3 2 (five_docs, 0)
                                                       "idx")))))
    by (cbn; lia).
  split; [exact Hne|]. split; [exact Heq|]. split.
  - rewrite (proj1 (dump_index_stops_at_total _ (chunk_call 3 3)
                      (chunk_call 3 3) 7 (fresh five_docs 0) "idx"
                      "2026-01-01_00-00-00") Hne Heq).
    reflexivity.
  - split; [exact Hover|].
    exact (proj2 (dump_index_stops_at_total _ (chunk_call 3 2)
                    (chunk_call 3 2) 7 (fresh five_docs 0) "idx"
                    "2026-01-01_00-00-00") Hover).
Defined.

Lemma dump_index_waits_for_missing_hits_witness :
  (forall b sid, hits (fst (dry_scroll b sid)) = []) /\
  dump_index (chunk_call 2 9) dry_scroll 1000 (fresh five_docs 0)
             "idx" "2026-01-01_00-00-00" = None.
Proof.
  assert (Hdry : forall b sid, hits (fst (dry_scroll b sid)) = [])
    by reflexivity.
  split; [exact Hdry|].
  refine (dump_index_waits_for_missing_hits _ (chunk_call 2 9) dry_scroll
            (fresh five_docs 0) "idx" "2026-01-01_00-00-00" Hdry _ _ _
            1000%nat).
  - discriminate.
  - repeat constructor; eexists; reflexivity.
  - cbn. lia.
Defined.

End Examples.

Section FloatExamples.
#[local] Existing Instance tenths_float.

(** Prices with a line feed inside a string. *)
Definition priced : list hit :=
  [[("_source", JDict [("pair", JScalar (PStr (String newline "usd")));
                       ("price", JScalar (PFloat 25))])];
   [("_source", JDict [("price", JList [JScalar (PFloat (-5));
                                        JScalar (PFloat 120)])])]].

Lemma priced_sized : Forall sized priced.
Proof.
  repeat constructor; intros source Hsrc; vm_compute in Hsrc;
    injection Hsrc as <-; eexists; reflexivity.
Qed.

Lemma one_line_per_record_witness :
  (forall x : Z, count_nl (tenths_repr x) = O) /\
  Forall has_source priced /\ Forall sized priced /\
  (exists text,
     snd (fst (write_to_file json_object ∅ priced)) !! "idx.json" = Some text /\
     count_nl text = 2%nat) /\
  (exists text,
     snd (fst (write_to_file csv_object ∅ priced)) !! "idx.csv" = Some text /\
     count_nl text = 2%nat).
Proof.
  assert (Hsrc : Forall has_source priced)
    by (repeat constructor; eexists; reflexivity).
  split; [exact count_nl_tenths|]. split; [exact Hsrc|].
  split; [exact priced_sized|]. split.
  - exact (proj1 (one_line_per_record json_object ∅ "idx.json" priced
                    count_nl_tenths eq_refl) eq_refl Hsrc).
  - exact (proj2 (one_line_per_record csv_object ∅ "idx.csv" priced
                    count_nl_tenths eq_refl) eq_refl priced_sized).
Defined.

End FloatExamples.

End Exporter.


(* ===================================================================== *)
(** ** The decorated methods: [create_connection] and [check_indexes] *)
(* ===================================================================== *)

Module Session.
Import Py Retry.

(** Both methods are wrapped by [@retry(ConnectionError,
    tries=TIMES_TO_TRY)], with the default delay.  The cluster and the
    rest of the object are a state [S]; exceptions are a type [E] with
    the test [isinstance(e, ConnectionError)]. *)
Section Methods.
Variables S E : Type.
Variable ConnectionError : E -> bool.
Variable str_exn : E -> string.
Variable sleep_error : E.

(** *** [create_connection] *)

(** [es.cluster.health()]: a request, whose answer is dropped. *)
Variable Health : Type.
Variable health : S -> outcome Health E * S.

(** The body, on the cluster and the attribute [self.es] (a client is
    named by the host it was built for; building it sends nothing). *)
Definition create_connection_body (host : string) (w : S * option string)
  : outcome unit E * (S * option string) :=
  match health (fst w) with
  | (Returns _, s') => (Returns tt, (s', Some host))
  | (Raises e, s') => (Raises e, (s', snd w))
  end.

Definition create_connection (host : string) (w : S * option string)
  : option (list event * (S * option string) * final unit E) :=
  f_retry _ _ _ ConnectionError str_exn sleep_error TIMES_TO_TRY RETRY_DELAY
          (create_connection_body host) w.

(** *** [check_indexes] *)

(** [self.es.indices.get_alias(self.index)] and [self.dump_index(index)],
    as any two operations on the state that end (with a value or an
    exception); the second component of the state of [check_indexes]
    logs the indexes given to [dump_index]. *)
Variable get_alias : S -> outcome (list string) E * S.
Variable dump : string -> S -> outcome unit E * S.

(** [for index in indexes: self.dump_index(index)] *)
Fixpoint dump_each (indexes : list string) (w : S * list string)
  : outcome unit E * (S * list string) :=
  match indexes with
  | [] => (Returns tt, w)
  | index :: rest =>
      match dump index (fst w) with
      | (Returns _, s') => dump_each rest (s', snd w ++ [index])
      | (Raises e, s') => (Raises e, (s', snd w ++ [index]))
      end
  end.

Definition check_indexes_body (w : S * list string)
  : outcome unit E * (S * list string) :=
  match get_alias (fst w) with
  | (Returns indexes, s') => dump_each indexes (s', snd w)
  | (Raises e, s') => (Raises e, (s', snd w))
  end.

Definition check_indexes (w : S * list string)
  : option (list event * (S * list string) * final unit E) :=
  f_retry _ _ _ ConnectionError str_exn sleep_error TIMES_TO_TRY RETRY_DELAY
          check_indexes_body w.

(** The state after [dump_index] has succeeded on each of [indexes]. *)
Fixpoint dumped (indexes : list string) (s : S) : S :=
  match indexes with
  | [] => s
  | index :: rest => dumped rest (snd (dump index s))
  end.

(** [dump_index] succeeds on each of [indexes], one after the other. *)
Fixpoint all_dump (indexes : list string) (s : S) : Prop :=
  match indexes with
  | [] => True
  | index :: rest =>
      (exists u, fst (dump index s) = Returns u) /\
      all_dump rest (snd (dump index s))
  end.

Lemma delay_nonneg : 0 <= RETRY_DELAY.
Proof. unfold RETRY_DELAY. lia. Qed.

(** X18.  [self.es] is assigned only once a health probe has answered: when
    [create_connection] returns, [self.es] is the new client and the
    last probe succeeded; when it raises or exits, [self.es] is what it
    was before the call. *)
Theorem create_connection_validated (host : string) (w : S * option string)
  tr w' r :
  create_connection host w = Some (tr, w', r) ->
  match r with
  | Returned _ =>
      snd w' = Some host /\
      exists info,
        fst (health (fst (world_after _ _ _ (create_connection_body host)
                                      (calls tr - 1) w)))
        = Returns info
  | _ => snd w' = snd w
  end.
Proof.
  intros Hrun. unfold create_connection, f_retry in Hrun.
  assert (Hkeep : (forall a, r <> Returned a) -> snd w' = snd w).
  { intros Hr.
    refine (retry_loop_failure_preserves _ _ _ _ _ _ _
              (create_connection_body host) (fun w0 => snd w0 = snd w) _
              _ _ w tr w' r eq_refl Hrun Hr).
    intros w0 e w1 Hbody Hw0. unfold create_connection_body in Hbody.
    destruct (health (fst w0)) as [[info|e0] s']; [discriminate|].
    injection Hbody as _ <-. exact Hw0. }
  destruct r as [a|e|status].
  - destruct (retry_loop_shape _ _ _ ConnectionError str_exn sleep_error
                RETRY_DELAY (create_connection_body host)
                (Z.to_nat TIMES_TO_TRY) TIMES_TO_TRY w (Nat.le_refl _))
      as (tr0 & w0 & r0 & Hrun0 & Hcalls & _ & Hw).
    rewrite Hrun in Hrun0. injection Hrun0 as <- <- <-.
    destruct (retry_loop_outcome _ _ _ ConnectionError str_exn sleep_error
                RETRY_DELAY (create_connection_body host)
                (Z.to_nat TIMES_TO_TRY) TIMES_TO_TRY
                w tr w' (Returned a) delay_nonneg (Nat.le_refl _) Hrun)
      as [_ Hlast].
    destruct (calls tr) as [|k] eqn:Hk; [lia|].
    cbn [Nat.sub] in *. rewrite Nat.sub_0_r in *.
    rewrite world_after_S in Hw. unfold outcome_at in Hlast.
    set (wk := world_after _ _ _ (create_connection_body host) k w) in *.
    unfold create_connection_body in Hw, Hlast.
    destruct (health (fst wk)) as [[info|e0] s']; [|discriminate].
    cbn [fst snd] in *. subst w'. split; [reflexivity|]. eauto.
  - apply Hkeep. intros a. discriminate.
  - apply Hkeep. intros a. discriminate.
Qed.

Lemma dump_each_all indexes :
  forall s log,
    all_dump indexes s ->
    dump_each indexes (s, log) = (Returns tt, (dumped indexes s, log ++ indexes)).
Proof.
  induction indexes as [|index rest IH]; intros s log Hall;
    cbn [dump_each dumped all_dump fst snd] in *.
  - rewrite app_nil_r. reflexivity.
  - destruct Hall as [[u Hu] Hrest].
    destruct (dump index s) as [[u'|e] s']; [|discriminate].
    cbn [snd] in *. rewrite (IH _ _ Hrest), <- app_assoc. reflexivity.
Qed.

Lemma dump_each_stops before index after :
  forall s log e,
    all_dump before s ->
    fst (dump index (dumped before s)) = Raises e ->
    dump_each (before ++ index :: after) (s, log) =
    (Raises e,
     (snd (dump index (dumped before s)), log ++ before ++ [index])).
Proof.
  induction before as [|i0 before IH]; intros s log e Hall Hfail;
    cbn [app dump_each dumped all_dump fst snd] in *.
  - destruct (dump index s) as [[u|e'] s']; cbn [fst snd] in *;
      [discriminate|]. injection Hfail as ->. reflexivity.
  - destruct Hall as [[u Hu] Hrest].
    destruct (dump i0 s) as [[u'|e'] s']; [|discriminate].
    cbn [snd] in *. rewrite (IH _ _ e Hrest Hfail), <- app_assoc.
    reflexivity.
Qed.

(** X19.  There is no isolation between indexes: when [dump_index] raises on
    one index an exception that is not a [ConnectionError], that
    exception leaves [check_indexes] after this single attempt, and the
    indexes that come after it are never dumped. *)
Theorem check_indexes_aborts (s : S) (log : list string)
  (before after : list string) (index : string) (e : E) :
  fst (get_alias s) = Returns (before ++ index :: after) ->
  all_dump before (snd (get_alias s)) ->
  fst (dump index (dumped before (snd (get_alias s)))) = Raises e ->
  ConnectionError e = false ->
  check_indexes (s, log) =
  Some ([Called],
        (snd (dump index (dumped before (snd (get_alias s)))),
         log ++ before ++ [index]),
        Raised e).
Proof.
  intros Halias Hall Hfail He.
  assert (Hbody : check_indexes_body (s, log) =
                  (Raises e,
                   (snd (dump index (dumped before (snd (get_alias s)))),
                    log ++ before ++ [index]))).
  { unfold check_indexes_body. cbn [fst snd].
    destruct (get_alias s) as [[indexes|e0] s1]; cbn [fst snd] in *;
      [|discriminate].
    injection Halias as ->. apply dump_each_stops; assumption. }
  unfold check_indexes, f_retry.
  apply retry_loop_permanent; [lia|exact Hbody|exact He].
Qed.

(** X20.  A [ConnectionError] in the middle of the loop restarts the whole
    method: after the pause, [get_alias] is asked again and [dump_index]
    runs again from the first index it lists, so that the indexes dumped
    before the error are dumped a second time. *)
Theorem check_indexes_starts_over (s : S) (log : list string)
  (before after again : list string) (index : string) (e : E) :
  fst (get_alias s) = Returns (before ++ index :: after) ->
  all_dump before (snd (get_alias s)) ->
  fst (dump index (dumped before (snd (get_alias s)))) = Raises e ->
  ConnectionError e = true ->
  fst (get_alias (snd (dump index (dumped before (snd (get_alias s))))))
    = Returns again ->
  all_dump again
    (snd (get_alias (snd (dump index (dumped before (snd (get_alias s))))))) ->
  exists tr s',
    check_indexes (s, log) =
      Some (tr, (s', log ++ before ++ [index] ++ again), Returned tt) /\
    calls tr = 2%nat /\ sleeps tr = [RETRY_DELAY].
Proof.
  intros Halias Hall Hfail He Halias2 Hall2.
  set (s1 := snd (dump index (dumped before (snd (get_alias s))))) in *.
  assert (Hbody1 : check_indexes_body (s, log) =
                   (Raises e, (s1, log ++ before ++ [index]))).
  { unfold check_indexes_body. cbn [fst snd].
    destruct (get_alias s) as [[indexes|e0] s0]; cbn [fst snd] in *;
      [|discriminate].
    injection Halias as ->. apply dump_each_stops; assumption. }
  assert (Hbody2 : check_indexes_body (s1, log ++ before ++ [index]) =
                   (Returns tt,
                    (dumped again (snd (get_alias s1)),
                     (log ++ before ++ [index]) ++ again))).
  { unfold check_indexes_body. cbn [fst snd].
    destruct (get_alias s1) as [[indexes|e0] s2]; cbn [fst snd] in *;
      [|discriminate].
    injection Halias2 as ->. apply dump_each_all. exact Hall2. }
  unfold check_indexes, f_retry.
  rewrite (retry_loop_rounds _ _ _ ConnectionError str_exn sleep_error
             RETRY_DELAY check_indexes_body 1 (Z.to_nat TIMES_TO_TRY)
             TIMES_TO_TRY (s, log) delay_nonneg).
  - cbn [failed_rounds world_after]. rewrite Hbody1. cbn [snd].
    assert (Hfuel : (Z.to_nat (TIMES_TO_TRY - Z.of_nat 1)
                     <= Z.to_nat TIMES_TO_TRY - 1)%nat)
      by (unfold TIMES_TO_TRY; lia).
    rewrite (retry_loop_success _ _ _ ConnectionError str_exn sleep_error
               RETRY_DELAY check_indexes_body _ _ _ tt _ Hfuel Hbody2).
    cbn [emit app calls sleeps]. rewrite <- !app_assoc. eauto.
  - change (Z.to_nat TIMES_TO_TRY) with 3%nat. lia.
  - lia.
  - intros j Hj. assert (j = O) as -> by lia.
    unfold outcome_at. cbn [world_after]. rewrite Hbody1. exact He.
Qed.

End Methods.

(** *** Concrete sessions

    The state counts the requests made; exceptions are named by their
    class. *)
Section Examples.

(** The cluster answers its third health probe. *)
Definition slow_health (n : nat) : outcome string string * nat :=
  (if Nat.ltb n 2 then Raises "ConnectionError" else Returns "green", S n).

Definition three_indexes (n : nat) : outcome (list string) string * nat :=
  (Returns ["a"; "b"; "c"], n).

(** The dump of index [b] fails with [err] as long as fewer than two
    dumps have been made. *)
Definition dump_with (err : string) (index : string) (n : nat)
  : outcome unit string * nat :=
  (if (String.eqb index "b" && Nat.ltb n 2)%bool then Raises err
   else Returns tt,
   S n).

Lemma create_connection_validated_witness :
  create_connection nat string is_connection_error id "ValueError"
                    string slow_health "localhost" (O, None) =
    Some ([Called; Printed "ConnectionError";
           Printed "Retrying in 60 seconds ..."; Slept 60;
           Called; Printed "ConnectionError";
           Printed "Retrying in 60 seconds ..."; Slept 60;
           Called],
          (3%nat, Some "localhost"), Returned tt) /\
  snd (3%nat, Some "localhost") = Some "localhost".
Proof.
  assert (Hrun : create_connection nat string is_connection_error id
                   "ValueError" string slow_health "localhost" (O, None) =
                 Some ([Called; Printed "ConnectionError";
                        Printed "Retrying in 60 seconds ..."; Slept 60;
                        Called; Printed "ConnectionError";
                        Printed "Retrying in 60 seconds ..."; Slept 60;
                        Called],
                       (3%nat, Some "localhost"), Returned tt))
    by reflexivity.
  split; [exact Hrun|].
  exact (proj1 (create_connection_validated nat string is_connection_error id
                  "ValueError" string slow_health "localhost" (O, None)
                  _ _ _ Hrun)).
Defined.

Lemma check_indexes_aborts_witness :
  is_connection_error "NotFoundError" = false /\
  check_indexes nat string is_connection_error id "ValueError"
                three_indexes (dump_with "NotFoundError") (O, []) =
  Some ([Called], (2%nat, ["a"; "b"]), Raised "NotFoundError").
Proof.
  split; [reflexivity|].
  refine (check_indexes_aborts nat string is_connection_error id "ValueError"
            three_indexes (dump_with "NotFoundError") O [] ["a"] ["c"] "b"
            "NotFoundError" eq_refl _ eq_refl eq_refl).
  split; [exists tt; reflexivity|exact I].
Defined.

Lemma check_indexes_starts_over_witness :
  is_connection_error "ConnectionError" = true /\
  exists tr s',
    check_indexes nat string is_connection_error id "ValueError"
                  three_indexes (dump_with "ConnectionError") (O, []) =
      Some (tr, (s', ["a"; "b"; "a"; "b"; "c"]), Returned tt) /\
    calls tr = 2%nat /\ sleeps tr = [RETRY_DELAY].
Proof.
  split; [reflexivity|].
  refine (check_indexes_starts_over nat string is_connection_error id
            "ValueError" three_indexes (dump_with "ConnectionError") O []
            ["a"] ["c"] ["a"; "b"; "c"] "b" "ConnectionError"
            eq_refl _ eq_refl eq_refl eq_refl _).
  - split; [exists tt; reflexivity|exact I].
  - repeat (split; [exists tt; reflexivity|]). exact I.
Defined.

End Examples.
End Session.
